(** * mqtt-ws-client: packet codec and acknowledgment state machine

    A shallow embedding of [src/index.js].

    Conventions of the embedding.
    - A JavaScript number that holds an integer is a [Z].  The bitwise
      operators of JavaScript work on the 32-bit two's complement image of
      their operands ([toInt32]); the shifts and masks below write that
      conversion out.  Sums and products of numbers are exact on integers
      below 2^53; the only unbounded accumulation is the remaining-length
      decoder, which is exact for length fields of at most seven bytes.
    - A [Uint8Array] is a [list Z] whose elements are bytes.  A store
      outside the array is ignored and a store inside keeps the value
      modulo 256 ([put]); a load outside the array is [undefined], which
      every bitwise operator reads as 0 ([getb]).
    - A JavaScript string is the list of its UTF-16 code units.
    - The client object is a record; every method takes the client and
      returns the updated one.  Everything the client does to the outside
      world (bytes handed to the socket, events emitted, user callbacks
      invoked) is appended to its [trace].  Event listeners and user
      callbacks are outside the program: [emit] and a user callback only
      leave their entry in the trace and return, so what [EventEmitter]
      does with an [error] event that has no listener is not part of the
      embedding.
    - [String.fromCharCode.apply(null, bytes)] is the string whose code
      units are [bytes].  An engine refuses an argument list beyond its
      own limit; the statements about whole inbound PUBLISH packets
      therefore bound the topic and the payload by 65535 bytes each. *)

From Stdlib Require Import ZArith Lia String.
From stdpp Require Import base option list gmap.

Local Open Scope Z_scope.

(** ** JavaScript integer conversions *)

Module JS.

(** ToInt32: the operand of [>>], [<<], [&] and [|]. *)
Definition toInt32 (n : Z) : Z := (n + 2 ^ 31) mod 2 ^ 32 - 2 ^ 31.

(** [a >> k] for a small constant [k]. *)
Definition shr (a k : Z) : Z := Z.shiftr (toInt32 a) k.

(** [a << k]. *)
Definition shl (a k : Z) : Z := toInt32 (Z.shiftl (toInt32 a) k).

(** [a & b]. *)
Definition band (a b : Z) : Z := Z.land (toInt32 a) (toInt32 b).

(** [a | b]. *)
Definition bor (a b : Z) : Z := Z.lor (toInt32 a) (toInt32 b).

(** [a % b] takes the sign of the dividend. *)
Definition rem (a b : Z) : Z := Z.rem a b.

(** A JavaScript string: its UTF-16 code units, as [charCodeAt] reads
    them. *)
Definition jsstring := list Z.

(** The values an option may hold, as far as truthiness and [!!] are
    concerned. *)
Inductive value : Type :=
| VUndefined
| VNull
| VBool (b : bool)
| VNum (n : Z)
| VNaN
| VStr (s : jsstring)
| VObject.

(** ToBoolean. *)
Definition truthy (v : value) : bool :=
  match v with
  | VUndefined | VNull | VNaN => false
  | VBool b => b
  | VNum n => negb (n =? 0)
  | VStr s => match s with [] => false | _ => true end
  | VObject => true
  end.

End JS.

(** ** Typed arrays *)

Module U8.

(** [new Uint8Array(n)]. *)
Definition make (n : Z) : list Z := replicate (Z.to_nat n) 0.

(** [bytes[p++] = v]: the cursor always advances, the store happens only
    inside the array and keeps the low eight bits. *)
Definition put (st : nat * list Z) (v : Z) : nat * list Z :=
  (S st.1, <[st.1 := v mod 256]> st.2).

(** [for (i = 0; i < src.length; i++) bytes[p++] = src[i]]. *)
Definition put_all (st : nat * list Z) (src : list Z) : nat * list Z :=
  fold_left put src st.

(** [data[i]] under a bitwise operator: [undefined] reads as 0. *)
Definition getb (data : list Z) (i : nat) : Z := default 0 (data !! i).

(** A relative index of [slice]: negative counts from the end, and the
    result is clamped to the array. *)
Definition clamp (len i : Z) : Z :=
  if i <? 0 then Z.max (len + i) 0 else Z.min i len.

(** [data.slice(from, to)]. *)
Definition slice (data : list Z) (from to : Z) : list Z :=
  let len := Z.of_nat (length data) in
  let k := clamp len from in
  let final := clamp len to in
  take (Z.to_nat (final - k)) (drop (Z.to_nat k) data).

(** [bytes.subarray(0, p)]. *)
Definition subarray0 (bytes : list Z) (p : nat) : list Z := take p bytes.

End U8.

(** ** Constants *)

Definition MQTT_PROTOCOL_NAME : JS.jsstring := [77; 81; 84; 84].
Definition MQTT_PROTOCOL_LEVEL : Z := 4.

Definition PACKET_TYPE_CONNECT     : Z := 1.
Definition PACKET_TYPE_CONNACK     : Z := 2.
Definition PACKET_TYPE_PUBLISH     : Z := 3.
Definition PACKET_TYPE_PUBACK      : Z := 4.
Definition PACKET_TYPE_PUBREC      : Z := 5.
Definition PACKET_TYPE_PUBREL      : Z := 6.
Definition PACKET_TYPE_PUBCOMP     : Z := 7.
Definition PACKET_TYPE_SUBSCRIBE   : Z := 8.
Definition PACKET_TYPE_SUBACK      : Z := 9.
Definition PACKET_TYPE_UNSUBSCRIBE : Z := 10.
Definition PACKET_TYPE_UNSUBACK    : Z := 11.
Definition PACKET_TYPE_PINGREQ     : Z := 12.
Definition PACKET_TYPE_PINGRESP    : Z := 13.
Definition PACKET_TYPE_DISCONNECT  : Z := 14.

Definition CONNECT_FLAG_WILL : Z := 2.

(** ** Codec *)

(** The [do ... while (remainLen > 0)] loop of [buildPacket], as the list
    of bytes it stores.  The shift truncates its operand to 32 bits, so
    five rounds always reach the exit ([encodeLoop_fuel]). *)
Fixpoint encodeLoop (fuel : nat) (remainLen : Z) : list Z :=
  match fuel with
  | O => []
  | S fuel' =>
      let byte := JS.rem remainLen 128 in
      let remainLen := JS.shr remainLen 7 in
      if 0 <? remainLen
      then JS.bor byte 128 :: encodeLoop fuel' remainLen
      else [byte]
  end.

Definition encodeRemainingLength (remainLen : Z) : list Z :=
  encodeLoop 5 remainLen.

(** [x ? x.length : 0] for an optional array. *)
Definition lengthOr0 (x : option (list Z)) : Z :=
  match x with Some l => Z.of_nat (length l) | None => 0 end.

(** [if (x) for (...) bytes[p++] = x[i]]. *)
Definition put_opt (st : nat * list Z) (x : option (list Z)) : nat * list Z :=
  match x with Some l => U8.put_all st l | None => st end.

Definition buildPacket (type flags : Z) (header payload : option (list Z))
  : list Z :=
  let remainLen := lengthOr0 header + lengthOr0 payload in
  let bytes := U8.make (4 + remainLen) in
  let st := (0%nat, bytes) in
  let st := U8.put st (JS.bor (JS.shl type 4) (JS.band flags 15)) in
  let st := U8.put_all st (encodeRemainingLength remainLen) in
  let st := put_opt st header in
  let st := put_opt st payload in
  U8.subarray0 st.2 st.1.

Definition ntob (number : Z) : list Z :=
  [JS.band (JS.shr number 8) 255; JS.band number 255].

Definition bton (data : list Z) : Z :=
  JS.bor (JS.shl (U8.getb data 0) 8) (U8.getb data 1).

Definition stob (s : JS.jsstring) : list Z := s.

Definition stolpb (s : JS.jsstring) : list Z :=
  ntob (Z.of_nat (length s)) ++ stob s.

(** The [do ... while ((byte & 0x80) !== 0)] loop of [_receivePacket].
    [rest] is the part of the buffer from the cursor [p] on; at the end of
    the buffer [byte] is [undefined], which adds 0 and ends the loop. *)
Fixpoint decodeLoop (rest : list Z) (p remainLen m : Z) : Z * Z :=
  match rest with
  | [] => (p + 1, remainLen)
  | byte :: rest' =>
      let remainLen := remainLen + JS.band byte 127 * m in
      if JS.band byte 128 =? 0
      then (p + 1, remainLen)
      else decodeLoop rest' (p + 1) remainLen (m * 128)
  end.

(** The cursor after the length field and the decoded remaining length. *)
Definition decodeRemainingLength (data : list Z) : Z * Z :=
  decodeLoop (drop 1 data) 1 0 1.

(** The head of [_receivePacket]: type, flags, declared remaining length
    and the body slice. *)
Record frame : Type := Frame {
  f_type : Z;
  f_flags : Z;
  f_remainLen : Z;
  f_body : list Z
}.

Definition parse (data : list Z) : frame :=
  let type := JS.shr (U8.getb data 0) 4 in
  let flags := JS.band (U8.getb data 0) 15 in
  let '(p, remainLen) := decodeRemainingLength data in
  Frame type flags remainLen (U8.slice data p (p + remainLen)).


(** ** The client *)

(** A callback supplied by the application.  Its body is outside the
    program; the embedding records each invocation with its arguments and
    assumes it returns normally without calling back into the client. *)
Definition ucb : Type := nat.

(** An entry of the [topics] argument of [subscribe]: a string, or an
    object with its own [qos]. *)
Inductive subtopic : Type :=
| TopicStr (topic : JS.jsstring)
| TopicObj (topic : JS.jsstring) (qos : Z).

(** The closures the client stores in [_callbacks], one constructor per
    arrow function, with the variables it captures. *)
Inductive handler : Type :=
| HConnect
| HPublish (callback : option ucb)
| HSubscribe (topics : list subtopic) (callback : option ucb)
| HUnsubscribe (callback : option ucb).

(** The argument lists the client calls a stored closure with, after the
    leading [err]. *)
Inductive hargs : Type :=
| ArgsNone
| ArgsConnack (connackFlags returnCode : option Z)
| ArgsAck (response : list Z).

(** What a user callback receives. *)
Inductive uargs : Type :=
| UNoArgs
| UErr (err : string)
| UGranted (granted : list (subtopic * option Z)).

Inductive event : Type :=
| WsSend (data : list Z)
| EmitClose
| EmitConnect (flags : option Z)
| EmitError (message : string)
| EmitMessage (topic payload : JS.jsstring)
| UserCall (callback : ucb) (args : uargs).

(** [true] or a number: the values of [!!x || 60]. *)
Inductive boolOrNum : Type :=
| BTrue
| BNum (n : Z).

Definition toNumber (v : boolOrNum) : Z :=
  match v with BTrue => 1 | BNum n => n end.

Record Client : Type := mkClient {
  _clientId : JS.jsstring;
  _clean : bool;
  _keepAlive : boolOrNum;
  _nextId : Z;
  _callbacks : gmap Z handler;
  trace : list event
}.

Definition emit (ev : event) (c : Client) : Client :=
  mkClient (_clientId c) (_clean c) (_keepAlive c) (_nextId c) (_callbacks c)
    (trace c ++ [ev]).

Definition set_callbacks (cbs : gmap Z handler) (c : Client) : Client :=
  mkClient (_clientId c) (_clean c) (_keepAlive c) (_nextId c) cbs (trace c).

Definition set_nextId (n : Z) (c : Client) : Client :=
  mkClient (_clientId c) (_clean c) (_keepAlive c) n (_callbacks c) (trace c).

(** A method either returns or throws a [TypeError]; both leave a client
    behind. *)
Inductive outcome : Type :=
| Ok (c : Client)
| TypeError (c : Client).

Definition bind (o : outcome) (k : Client -> outcome) : outcome :=
  match o with Ok c => k c | TypeError c => TypeError c end.

Record options : Type := mkOptions {
  clientId : option JS.jsstring;
  clean : JS.value;
  keepAlive : JS.value
}.

(** [new Client(options)]; [rand] is [Math.random().toString(16).substr(2, 8)]. *)
Definition constructor (o : options) (rand : JS.jsstring) : Client :=
  {| _clientId :=
       match clientId o with
       | Some (ch :: s) => ch :: s
       | _ => [97; 119; 115; 116; 115; 99; 95] ++ rand
       end;
     _clean := JS.truthy (clean o);
     _keepAlive := if JS.truthy (keepAlive o) then BTrue else BNum 60;
     _nextId := 1;
     _callbacks := ∅;
     trace := [] |}.

(** [ws.onclose]. *)
Definition onclose (c : Client) : Client := emit EmitClose c.

(** The user callback wrapper shared by [publish] and [unsubscribe]:
    [if (callback) { if (err) callback(err); else callback(); }]. *)
Definition notify (callback : option ucb) (err : option string) (c : Client)
  : Client :=
  match callback with
  | Some f =>
      match err with
      | Some e => emit (UserCall f (UErr e)) c
      | None => emit (UserCall f UNoArgs) c
      end
  | None => c
  end.

Definition connackMessage (returnCode : option Z) : string :=
  match returnCode with
  | Some 1 => "Unsupported protocol level"
  | Some 2 => "Invalid client identifier"
  | Some 3 => "Service unavailable"
  | Some 4 => "Malformed username or password"
  | Some 5 => "Client not authorized"
  | _ => "Connection failed"
  end.

(** Calling a stored closure as [callback(err, ...args)]. *)
Definition invoke (h : handler) (err : option string) (args : hargs)
  (c : Client) : outcome :=
  match h with
  | HConnect =>
      match err with
      | Some e => Ok (emit (EmitError e) c)
      | None =>
          let flags :=
            match args with ArgsConnack f _ => f | _ => None end in
          let returnCode :=
            match args with ArgsConnack _ rc => rc | _ => None end in
          match returnCode with
          | Some 0 => Ok (emit (EmitConnect flags) c)
          | _ => Ok (emit (EmitError (connackMessage returnCode)) c)
          end
      end
  | HPublish callback => Ok (notify callback err c)
  | HUnsubscribe callback => Ok (notify callback err c)
  | HSubscribe topics callback =>
      match callback with
      | None => Ok c
      | Some f =>
          match err with
          | Some e => Ok (emit (UserCall f (UErr e)) c)
          | None =>
              (* topics.map((topic, i) => ({topic, qos: response[i]})) *)
              match args with
              | ArgsAck response =>
                  Ok (emit (UserCall f (UGranted
                        (imap (fun i t => (t, response !! i)) topics))) c)
              | ArgsConnack (Some _) _ =>
                  Ok (emit (UserCall f (UGranted
                        (imap (fun i t => (t, None)) topics))) c)
              | _ =>
                  match topics with
                  | [] => Ok (emit (UserCall f (UGranted [])) c)
                  | _ => TypeError c
                  end
              end
          end
      end
  end.

Definition _sendPacket (data : list Z) (packetId : Z)
  (callback : option handler) (c : Client) : outcome :=
  let c := emit (WsSend data) c in
  match callback with
  | Some h =>
      if -1 <? packetId
      then Ok (set_callbacks (<[packetId := h]> (_callbacks c)) c)
      else invoke h None ArgsNone c
  | None => Ok c
  end.

Definition _handleAck (data : list Z) (c : Client) : outcome :=
  let packetId := bton (U8.slice data 0 2) in
  match _callbacks c !! packetId with
  | Some h =>
      let response := drop 2 data in
      bind (invoke h None (ArgsAck response) c) (fun c =>
        Ok (set_callbacks (delete packetId (_callbacks c)) c))
  | None => Ok c
  end.

(** The [PACKET_TYPE_PUBLISH] case of [_receivePacket]; [data] is the body
    and [remainLen] the declared remaining length. *)
Definition receivePublish (flags remainLen : Z) (data : list Z) (c : Client)
  : outcome :=
  let qos := JS.band (JS.shr flags 1) 3 in
  let n := bton data in
  let p := 2 in
  let topic := U8.slice data p (p + n) in
  let p := p + n in
  let packetId := if 0 <? qos then bton (U8.slice data p (p + 2)) else -1 in
  let p := if 0 <? qos then p + 2 else p in
  let payload := U8.slice data p remainLen in
  let c := emit (EmitMessage topic payload) c in
  if qos =? 1 then
    _sendPacket (buildPacket PACKET_TYPE_PUBACK 0 (Some (ntob packetId)) None)
      (-1) None c
  else if qos =? 2 then
    _sendPacket (buildPacket PACKET_TYPE_PUBREC 0 (Some data) None)
      (-1) None c
  else Ok c.

Definition _receivePacket (data : list Z) (c : Client) : outcome :=
  let fr := parse data in
  let type := f_type fr in
  let data := f_body fr in
  if type =? PACKET_TYPE_CONNACK then
    let connackFlags := data !! 0%nat in
    let returnCode := data !! 1%nat in
    match _callbacks c !! 0 with
    | Some callback =>
        invoke callback None (ArgsConnack connackFlags returnCode) c
    | None => TypeError c
    end
  else if type =? PACKET_TYPE_PUBLISH then
    receivePublish (f_flags fr) (f_remainLen fr) data c
  else if (type =? PACKET_TYPE_PUBACK) || (type =? PACKET_TYPE_PUBCOMP)
          || (type =? PACKET_TYPE_SUBACK) || (type =? PACKET_TYPE_UNSUBACK)
  then _handleAck data c
  else if type =? PACKET_TYPE_PUBREC then
    _sendPacket (buildPacket PACKET_TYPE_PUBREL 0 (Some data) None)
      (-1) None c
  else Ok c.

Definition _connect (c : Client) : outcome :=
  let header :=
    stolpb MQTT_PROTOCOL_NAME ++
    [MQTT_PROTOCOL_LEVEL; JS.bor (Z.b2z (_clean c)) CONNECT_FLAG_WILL] ++
    ntob (toNumber (_keepAlive c)) in
  let payload := stolpb (_clientId c) in
  let packet := buildPacket PACKET_TYPE_CONNECT 0 (Some header) (Some payload) in
  _sendPacket packet 0 (Some HConnect) c.

(** The [options] argument of [publish] after the argument shuffle:
    missing ([undefined] or [null], as in [publish(topic)] and
    [publish(topic, message)]), a function (the callback given in its
    place), a number (the QoS), or an object whose absent fields read as
    [false] and 0. *)
Inductive publishOptions : Type :=
| PubMissing
| PubFunction
| PubNumber (qos : Z)
| PubObject (dup : bool) (qos : Z) (remain : bool).

(** Whether the last branch of the [typeof options] chain can read
    [options.dup]: on [undefined] and [null] the read throws. *)
Definition optionsGiven (opts : publishOptions) : bool :=
  match opts with PubMissing => false | _ => true end.

(** [message && stob(message)] as [buildPacket] tests it: [null] and the
    empty string are both skipped. *)
Definition messageBytes (message : option JS.jsstring) : option (list Z) :=
  match message with
  | Some (ch :: s) => Some (stob (ch :: s))
  | _ => None
  end.

(** [dup], [qos] and [remain] after the [typeof options] chain. *)
Definition optDup (opts : publishOptions) : bool :=
  match opts with PubObject d _ _ => d | _ => false end.

Definition optQos (opts : publishOptions) : Z :=
  match opts with PubNumber q | PubObject _ q _ => q | _ => 0 end.

Definition optRemain (opts : publishOptions) : bool :=
  match opts with PubObject _ _ r => r | _ => false end.

Definition publish (topic : JS.jsstring) (message : option JS.jsstring)
  (opts : publishOptions) (callback : option ucb) (c : Client) : outcome :=
  if optionsGiven opts then
    let dup := optDup opts in
    let qos := optQos opts in
    let remain := optRemain opts in
    let flags :=
      JS.bor (JS.bor (JS.shl (Z.b2z dup) 3) (JS.shl (JS.band qos 3) 1))
        (Z.b2z remain) in
    let packetId := if 0 <? qos then _nextId c else -1 in
    let c := if 0 <? qos then set_nextId (_nextId c + 1) c else c in
    let header := stolpb topic in
    let header := if -1 <? packetId then header ++ ntob packetId else header in
    let payload := messageBytes message in
    let packet := buildPacket PACKET_TYPE_PUBLISH flags (Some header) payload in
    _sendPacket packet packetId (Some (HPublish callback)) c
  else TypeError c.

Definition subscribe (topics : list subtopic) (qos : option Z)
  (callback : option ucb) (c : Client) : outcome :=
  let qos := default 0 qos in
  let flags := JS.band qos 3 in
  let packetId := _nextId c in
  let c := set_nextId (_nextId c + 1) c in
  let payload :=
    fold_left (fun data topic =>
      match topic with
      | TopicObj t q => data ++ stolpb t ++ [JS.band q 3]
      | TopicStr t => data ++ stolpb t ++ [flags]
      end) topics [] in
  let packet :=
    buildPacket PACKET_TYPE_SUBSCRIBE 2 (Some (ntob packetId)) (Some payload) in
  _sendPacket packet packetId (Some (HSubscribe topics callback)) c.

Definition unsubscribe (topics : list JS.jsstring) (callback : option ucb)
  (c : Client) : outcome :=
  let packetId := _nextId c in
  let c := set_nextId (_nextId c + 1) c in
  let payload := fold_left (fun data topic => data ++ stolpb topic) topics [] in
  let packet :=
    buildPacket PACKET_TYPE_UNSUBSCRIBE 2 (Some (ntob packetId)) (Some payload) in
  _sendPacket packet packetId (Some (HUnsubscribe callback)) c.

Definition ping (c : Client) : outcome :=
  _sendPacket (buildPacket PACKET_TYPE_PINGREQ 0 None None) (-1) None c.

Definition disconnect (c : Client) : outcome :=
  _sendPacket (buildPacket PACKET_TYPE_DISCONNECT 0 None None) (-1) None c.

(** ** Auxiliary definitions for the statements *)

(** The number of bytes the protocol allows for a remaining length. *)
Definition minimalLength (n : Z) : Z :=
  if n <? 128 then 1
  else if n <? 16384 then 2
  else if n <? 2097152 then 3
  else 4.

(** The first byte of a packet as [buildPacket] computes it. *)
Definition fixedHeaderByte (type flags : Z) : Z :=
  JS.bor (JS.shl type 4) (JS.band flags 15) mod 256.

(** The bytes [buildPacket] stores, in the order it stores them, whether
    or not they land inside the buffer. *)
Definition stored (type flags : Z) (header payload : option (list Z))
  : list Z :=
  fixedHeaderByte type flags ::
  ((fun v => v mod 256) <$>
     encodeRemainingLength (lengthOr0 header + lengthOr0 payload)) ++
  ((fun v => v mod 256) <$> default [] header) ++
  ((fun v => v mod 256) <$> default [] payload).

(** A buffer of [L] bytes after the bytes [w] were stored from index 0:
      the cursor has passed all of [w], the array kept what fits. *)
Definition written (L : nat) (w : list Z) : nat * list Z :=
    (length w, take L (w ++ replicate (L - length w) 0)).

(** The value of a length field: each byte's low seven bits times 128 to
    the power of its position. *)
Fixpoint lengthValue (bs : list Z) : Z :=
  match bs with
  | [] => 0
  | b :: bs' => JS.band b 127 + 128 * lengthValue bs'
  end.


(** A client as the constructor leaves it, with default options. *)
Definition client0 : Client :=
  constructor (mkOptions None JS.VUndefined JS.VUndefined) [49; 50].

(** The client after the socket opened and [_connect] sent CONNECT. *)
Definition connecting : Client :=
  match _connect client0 with Ok c | TypeError c => c end.

(** Running a method on the client a previous method left. *)
Definition andThen (c : Client) (step : Client -> outcome) : Client :=
  match step c with Ok c' | TypeError c' => c' end.

(** Seven QoS 1 publishes (identifiers 1 to 7, user callbacks 1 to 7), then
    the acknowledgments of all but the third and the seventh. *)
Definition pending_3_7 : Client :=
  let sent :=
    foldl (fun c cb => andThen c (publish [97] (Some [104]) (PubNumber 1)
                                    (Some cb)))
      client0 [1; 2; 3; 4; 5; 6; 7]%nat in
  foldl (fun c j => andThen c (_receivePacket [64; 2; 0; j]))
    sent [1; 2; 4; 5; 6].

(** One entry of the payload of SUBSCRIBE: the topic, length-prefixed, and
    its requested QoS, which is the entry's own for an object and the
    call's for a string. *)
Definition subscribeEntry (flags : Z) (topic : subtopic) : list Z :=
  match topic with
  | TopicObj t q => stolpb t ++ [JS.band q 3]
  | TopicStr t => stolpb t ++ [flags]
  end.

(** What reaches the client from outside: the socket's [onopen],
    [onmessage] and [onclose], and the public methods. *)
Inductive call : Type :=
| CallOpen
| CallMessage (data : list Z)
| CallClose
| CallPublish (topic : JS.jsstring) (message : option JS.jsstring)
    (opts : publishOptions) (callback : option ucb)
| CallSubscribe (topics : list subtopic) (qos : option Z)
    (callback : option ucb)
| CallUnsubscribe (topics : list JS.jsstring) (callback : option ucb)
| CallPing
| CallDisconnect.

Definition perform (e : call) (c : Client) : outcome :=
  match e with
  | CallOpen => _connect c
  | CallMessage data => _receivePacket data c
  | CallClose => Ok (onclose c)
  | CallPublish topic message opts callback =>
      publish topic message opts callback c
  | CallSubscribe topics qos callback => subscribe topics qos callback c
  | CallUnsubscribe topics callback => unsubscribe topics callback c
  | CallPing => ping c
  | CallDisconnect => disconnect c
  end.

(** The clients a program can hold: a new one, and the one any call leaves
    behind, whether the call returned or threw. *)
Inductive reachable : Client -> Prop :=
| reach_new (o : options) (rand : JS.jsstring) :
    reachable (constructor o rand)
| reach_call (c : Client) (e : call) :
    reachable c -> reachable (andThen c (perform e)).

(** The shape of the registry: the counter is at least 1, identifier 0
    holds nothing but the connect closure, and every other entry sits
    under an identifier the counter has passed and is not the connect
    closure. *)
Definition registryOk (c : Client) : Prop :=
  1 <= _nextId c /\
  forall k h,
    _callbacks c !! k = Some h ->
    (k = 0 /\ h = HConnect) \/ (1 <= k < _nextId c /\ h <> HConnect).

(** The packet types [_receivePacket] has a case for. *)
Definition handledType (t : Z) : Prop :=
  t = PACKET_TYPE_CONNACK \/ t = PACKET_TYPE_PUBLISH \/
  t = PACKET_TYPE_PUBACK \/ t = PACKET_TYPE_PUBREC \/
  t = PACKET_TYPE_PUBCOMP \/ t = PACKET_TYPE_SUBACK \/
  t = PACKET_TYPE_UNSUBACK.

(** The packet types that go to [_handleAck]. *)
Definition ackType (t : Z) : Prop :=
  t = PACKET_TYPE_PUBACK \/ t = PACKET_TYPE_PUBCOMP \/
  t = PACKET_TYPE_SUBACK \/ t = PACKET_TYPE_UNSUBACK.

(** What no call changes: the configuration is kept and the trace only
    grows. *)
Definition keepsConfig (c c' : Client) : Prop :=
  _clientId c' = _clientId c /\ _clean c' = _clean c /\
  _keepAlive c' = _keepAlive c /\
  exists evs, trace c' = trace c ++ evs.

(** How a call may change the registry and the counter: not at all, by
    registering the connect closure under 0, by registering a request
    closure under the counter and advancing it, or by removing one
    entry. *)
Inductive registryChange (c c' : Client) : Prop :=
| change_none :
    _callbacks c' = _callbacks c -> _nextId c' = _nextId c ->
    registryChange c c'
| change_connect :
    _callbacks c' = <[0 := HConnect]> (_callbacks c) ->
    _nextId c' = _nextId c ->
    registryChange c c'
| change_request (h : handler) :
    h <> HConnect ->
    _callbacks c' = <[_nextId c := h]> (_callbacks c) ->
    _nextId c' = _nextId c + 1 ->
    registryChange c c'
| change_remove (k : Z) :
    _callbacks c' = delete k (_callbacks c) -> _nextId c' = _nextId c ->
    registryChange c c'.

(** * Properties *)

(** ** The model on concrete inputs *)

Example encode_321 : encodeRemainingLength 321 = [193; 2].
Proof. reflexivity. Qed.

Example build_puback : buildPacket 4 0 (Some (ntob 258)) None = [64; 2; 1; 2].
Proof. reflexivity. Qed.

Example parse_puback :
  parse [64; 2; 1; 2] = Frame 4 0 2 [1; 2].
Proof. reflexivity. Qed.

(** ** Integer conversions and bit masks *)

Section Bits.

Lemma toInt32_small n : - 2 ^ 31 <= n < 2 ^ 31 -> JS.toInt32 n = n.
Proof.
  intros Hn. unfold JS.toInt32. rewrite Z.mod_small; lia.
Qed.

Lemma toInt32_range n : - 2 ^ 31 <= JS.toInt32 n < 2 ^ 31.
Proof.
  unfold JS.toInt32.
  pose proof (Z.mod_pos_bound (n + 2 ^ 31) (2 ^ 32) ltac:(lia)). lia.
Qed.

Lemma toInt32_idem n : JS.toInt32 (JS.toInt32 n) = JS.toInt32 n.
Proof. apply toInt32_small, toInt32_range. Qed.

Lemma shr_small n k :
  0 <= k -> - 2 ^ 31 <= n < 2 ^ 31 -> JS.shr n k = n / 2 ^ k.
Proof.
  intros Hk Hn. unfold JS.shr.
  rewrite toInt32_small by done. by apply Z.shiftr_div_pow2.
Qed.

(** The low [k] bits and the bits from [k] up do not overlap. *)
Lemma land_shiftl_low hi lo k :
  0 <= k -> 0 <= lo < 2 ^ k -> Z.land (Z.shiftl hi k) lo = 0.
Proof.
  intros Hk Hlo. apply Z.bits_inj'. intros n Hn.
  rewrite Z.land_spec, Z.bits_0.
  destruct (Z.lt_ge_cases n k) as [Hlt | Hge].
  - by rewrite Z.shiftl_spec_low.
  - rewrite <- (Z.mod_small lo (2 ^ k)) by done.
    rewrite Z.mod_pow2_bits_high by lia. apply andb_false_r.
Qed.

Lemma lor_shiftl_low hi lo k :
  0 <= k -> 0 <= lo < 2 ^ k -> Z.lor (Z.shiftl hi k) lo = hi * 2 ^ k + lo.
Proof.
  intros Hk Hlo.
  rewrite <- Z.lxor_lor by (by apply land_shiftl_low).
  rewrite <- Z.add_nocarry_lxor by (by apply land_shiftl_low).
  by rewrite Z.shiftl_mul_pow2.
Qed.

Lemma land_127 x : Z.land x 127 = x mod 128.
Proof. apply (Z.land_ones x 7). lia. Qed.

Lemma land_255 x : Z.land x 255 = x mod 256.
Proof. apply (Z.land_ones x 8). lia. Qed.

Lemma land_15 x : Z.land x 15 = x mod 16.
Proof. apply (Z.land_ones x 4). lia. Qed.

Lemma land_128_low x : 0 <= x < 128 -> Z.land x 128 = 0.
Proof.
  intros Hx. rewrite Z.land_comm. by apply (land_shiftl_low 1 x 7).
Qed.

Lemma lor_128 x : 0 <= x < 128 -> Z.lor x 128 = x + 128.
Proof.
  intros Hx. rewrite Z.lor_comm.
  pose proof (lor_shiftl_low 1 x 7 ltac:(lia) ltac:(lia)) as H.
  change (Z.shiftl 1 7) with 128 in H. lia.
Qed.

Lemma land_128_high x : 0 <= x < 128 -> Z.land (x + 128) 128 = 128.
Proof.
  intros Hx. rewrite <- lor_128 by done.
  rewrite Z.land_lor_distr_l, land_128_low by done. reflexivity.
Qed.

(** A continuation byte: the low seven bits of the value, bit 7 set. *)
Lemma cont_byte_low x :
  0 <= x < 128 -> JS.band (JS.bor x 128) 127 = x.
Proof.
  intros Hx. unfold JS.band, JS.bor.
  rewrite !(toInt32_small x), !(toInt32_small 128), (toInt32_small 127)
    by lia.
  rewrite lor_128 by done. rewrite toInt32_small by lia.
  rewrite land_127.
  rewrite <- (Z.mod_unique_pos (x + 128) 128 1 x); lia.
Qed.

Lemma cont_byte_flag x :
  0 <= x < 128 -> JS.band (JS.bor x 128) 128 = 128.
Proof.
  intros Hx. unfold JS.band, JS.bor.
  rewrite !(toInt32_small x), !(toInt32_small 128) by lia.
  rewrite lor_128 by done. rewrite toInt32_small by lia.
  by apply land_128_high.
Qed.

Lemma last_byte_low x : 0 <= x < 128 -> JS.band x 127 = x.
Proof.
  intros Hx. unfold JS.band.
  rewrite (toInt32_small x), (toInt32_small 127) by lia.
  rewrite land_127. apply Z.mod_small. lia.
Qed.

Lemma last_byte_flag x : 0 <= x < 128 -> JS.band x 128 = 0.
Proof.
  intros Hx. unfold JS.band.
  rewrite (toInt32_small x), (toInt32_small 128) by lia.
  by apply land_128_low.
Qed.

(** [ntob] on a 16-bit identifier: its high and low byte. *)
Lemma ntob_16 k : 0 <= k < 65536 -> ntob k = [k / 256; k mod 256].
Proof.
  intros Hk.
  assert (0 <= k / 256 < 256) as Hq
    by (split; [apply Z.div_pos | apply Z.div_lt_upper_bound]; lia).
  unfold ntob, JS.band. rewrite (shr_small k 8) by lia.
  change (2 ^ 8) with 256.
  rewrite (toInt32_small (k / 256)), (toInt32_small 255),
    (toInt32_small k) by lia.
  by rewrite !land_255, (Z.mod_small (k / 256)).
Qed.

(** [bton] on two bytes. *)
Lemma bton_bytes hi lo rest :
  0 <= hi < 256 -> 0 <= lo < 256 -> bton (hi :: lo :: rest) = hi * 256 + lo.
Proof.
  intros Hhi Hlo. unfold bton, JS.bor, JS.shl, U8.getb. simpl.
  rewrite (toInt32_small hi), (toInt32_small lo) by lia.
  assert (Z.shiftl hi 8 = hi * 256) as Hs
    by (rewrite Z.shiftl_mul_pow2; lia).
  rewrite !(toInt32_small (Z.shiftl hi 8)) by lia.
  rewrite (lor_shiftl_low hi lo 8) by lia. lia.
Qed.

Lemma bton_ntob k rest : 0 <= k < 65536 -> bton (ntob k ++ rest) = k.
Proof.
  intros Hk. rewrite ntob_16 by done. simpl.
  rewrite bton_bytes.
  - pose proof (Z.div_mod k 256). lia.
  - split; [apply Z.div_pos | apply Z.div_lt_upper_bound]; lia.
  - apply Z.mod_pos_bound. lia.
Qed.

End Bits.

(** ** The remaining-length field *)

Section Varint.

Lemma encodeLoop_step fuel r :
  encodeLoop (S fuel) r =
    if 0 <? JS.shr r 7
    then JS.bor (JS.rem r 128) 128 :: encodeLoop fuel (JS.shr r 7)
    else [JS.rem r 128].
Proof. reflexivity. Qed.

Lemma shr7_int32 r : - 2 ^ 24 <= JS.shr r 7 < 2 ^ 24.
Proof.
  unfold JS.shr. rewrite Z.shiftr_div_pow2 by lia.
  pose proof (toInt32_range r). Z.div_mod_to_equations. lia.
Qed.

Lemma shr7_div r : - 2 ^ 31 <= r < 2 ^ 31 -> JS.shr r 7 = r / 128.
Proof. intros Hr. by rewrite shr_small. Qed.

Lemma rem128_mod r : 0 <= r -> JS.rem r 128 = r mod 128.
Proof. intros Hr. unfold JS.rem. apply Z.rem_mod_nonneg; lia. Qed.

(** Once the value fits in [7 * (fuel + 1)] bits, more fuel changes
    nothing: the loop has left through its exit. *)
Lemma encodeLoop_enough fuel :
  forall r fuel',
    - 2 ^ 31 <= r < 2 ^ 31 -> r < 128 ^ Z.of_nat (S fuel) ->
    (S fuel <= fuel')%nat ->
    encodeLoop fuel' r = encodeLoop (S fuel) r.
Proof.
  induction fuel as [| fuel IH]; intros r fuel' Hr Hb Hf;
    (destruct fuel' as [| fuel']; [lia |]); rewrite !encodeLoop_step;
    rewrite shr7_div by done.
  - change (128 ^ Z.of_nat 1) with 128 in Hb.
    destruct (Z.ltb_spec 0 (r / 128)) as [Hq | Hq]; [| done].
    exfalso. Z.div_mod_to_equations. lia.
  - destruct (Z.ltb_spec 0 (r / 128)) as [Hq | Hq]; [| done].
    f_equal. apply IH; [| | lia].
    + Z.div_mod_to_equations. lia.
    + apply Z.div_lt_upper_bound; [lia |].
      rewrite <- Z.pow_succ_r by lia. by rewrite <- Nat2Z.inj_succ.
Qed.

(** Five rounds are enough for every number. *)
Lemma encodeLoop_fuel r fuel :
  (5 <= fuel)%nat -> encodeLoop fuel r = encodeRemainingLength r.
Proof.
  intros Hf. unfold encodeRemainingLength.
  destruct fuel as [| fuel]; [lia |]. rewrite !encodeLoop_step.
  destruct (0 <? JS.shr r 7); [| done]. f_equal.
  pose proof (shr7_int32 r).
  apply (encodeLoop_enough 3); [lia | | lia].
  change (128 ^ Z.of_nat 4) with (2 ^ 28). lia.
Qed.

(** Decoding what the encoder wrote: the cursor moves over exactly the
    bytes written and the accumulator gains [n * m]. *)
Lemma decodeLoop_encodeLoop fuel :
  forall n rest p acc m,
    0 <= n < 2 ^ 31 -> n < 128 ^ Z.of_nat (S fuel) ->
    decodeLoop (encodeLoop (S fuel) n ++ rest) p acc m =
      (p + Z.of_nat (length (encodeLoop (S fuel) n)), acc + n * m).
Proof.
  induction fuel as [| fuel IH]; intros n rest p acc m Hn Hb;
    rewrite encodeLoop_step, shr7_div, rem128_mod by lia.
  - change (128 ^ Z.of_nat 1) with 128 in Hb.
    destruct (Z.ltb_spec 0 (n / 128)) as [Hq | Hq];
      [exfalso; Z.div_mod_to_equations; lia |].
    rewrite Z.mod_small by lia. simpl.
    by rewrite last_byte_low, last_byte_flag by lia.
  - pose proof (Z.mod_pos_bound n 128 ltac:(lia)) as Hbyte.
    destruct (Z.ltb_spec 0 (n / 128)) as [Hq | Hq].
    + cbn [app decodeLoop length].
      rewrite cont_byte_low, cont_byte_flag by done.
      change (128 =? 0) with false. cbv iota.
      rewrite IH.
      * f_equal; [lia |].
        rewrite (Z.div_mod n 128) at 3 by lia. ring.
      * Z.div_mod_to_equations. lia.
      * apply Z.div_lt_upper_bound; [lia |].
        rewrite <- Z.pow_succ_r by lia. by rewrite <- Nat2Z.inj_succ.
    + assert (n < 128) as Hlt by (Z.div_mod_to_equations; lia).
      rewrite Z.mod_small by lia.
      simpl. by rewrite last_byte_low, last_byte_flag by lia.
Qed.

(** The encoder uses the fewest bytes the format allows. *)
Lemma encodeRemainingLength_length n :
  0 <= n < 2 ^ 28 ->
  Z.of_nat (length (encodeRemainingLength n)) = minimalLength n.
Proof.
  intros Hn. unfold encodeRemainingLength, minimalLength.
  rewrite encodeLoop_step, shr7_div by lia.
  destruct (Z.ltb_spec 0 (n / 128)) as [Hq1 | Hq1];
    [| destruct (Z.ltb_spec n 128); [done |];
       exfalso; Z.div_mod_to_equations; lia].
  destruct (Z.ltb_spec n 128); [exfalso; Z.div_mod_to_equations; lia |].
  cbn [length]. rewrite encodeLoop_step, shr7_div
    by (Z.div_mod_to_equations; lia).
  destruct (Z.ltb_spec 0 (n / 128 / 128)) as [Hq2 | Hq2];
    [| destruct (Z.ltb_spec n 16384); [done |];
       exfalso; Z.div_mod_to_equations; lia].
  destruct (Z.ltb_spec n 16384); [exfalso; Z.div_mod_to_equations; lia |].
  cbn [length]. rewrite encodeLoop_step, shr7_div
    by (Z.div_mod_to_equations; lia).
  destruct (Z.ltb_spec 0 (n / 128 / 128 / 128)) as [Hq3 | Hq3];
    [| destruct (Z.ltb_spec n 2097152); [done |];
       exfalso; Z.div_mod_to_equations; lia].
  destruct (Z.ltb_spec n 2097152);
    [exfalso; Z.div_mod_to_equations; lia |].
  cbn [length]. rewrite encodeLoop_step, shr7_div
    by (Z.div_mod_to_equations; lia).
  destruct (Z.ltb_spec 0 (n / 128 / 128 / 128 / 128)) as [Hq4 | Hq4];
    [exfalso; Z.div_mod_to_equations; lia | done].
Qed.

(** A length field over which the cursor advances [k] places holds a value
  below [128 ^ k]. *)
Lemma decodeLoop_bound bs :
  forall p acc m,
    0 <= m ->
    p < (decodeLoop bs p acc m).1 /\
    acc <= (decodeLoop bs p acc m).2
        <= acc + m * (128 ^ ((decodeLoop bs p acc m).1 - p) - 1).
Proof.
  induction bs as [| b bs IH]; intros p acc m Hm; simpl decodeLoop.
  - cbn [fst snd]. replace (p + 1 - p) with 1 by lia.
    change (128 ^ 1) with 128. lia.
  - assert (0 <= JS.band b 127 < 128) as Hb.
    { unfold JS.band. rewrite (toInt32_small 127) by lia.
      rewrite land_127. apply Z.mod_pos_bound. lia. }
    destruct (JS.band b 128 =? 0); cbn [fst snd].
    + replace (p + 1 - p) with 1 by lia. change (128 ^ 1) with 128. nia.
    + specialize (IH (p + 1) (acc + JS.band b 127 * m) (m * 128)
                    ltac:(lia)) as [Hp Hv].
      set (r := decodeLoop bs (p + 1) (acc + JS.band b 127 * m) (m * 128))
        in *.
      assert (128 ^ (r.1 - p) = 128 * 128 ^ (r.1 - (p + 1))) as ->.
      { rewrite <- Z.pow_succ_r by lia. f_equal. lia. }
      assert (1 <= 128 ^ (r.1 - (p + 1))) as Hpow
        by (apply (Z.pow_le_mono_r 128 0); lia).
      split; [lia | nia].
Qed.

End Varint.

(** ** Packet assembly *)

Section Buffer.

Lemma make_written n : (0%nat, U8.make n) = written (Z.to_nat n) [].
Proof.
  unfold written, U8.make. simpl. rewrite Nat.sub_0_r.
  by rewrite take_ge by (by rewrite length_replicate).
Qed.

Lemma put_written L w v :
  U8.put (written L w) v = written L (w ++ [v mod 256]).
Proof.
  unfold U8.put, written. cbn [fst snd].
  rewrite length_app. cbn [length]. f_equal; [lia |].
  destruct (Nat.lt_ge_cases (length w) L) as [Hlt | Hge].
  - replace (L - length w)%nat with (S (L - (length w + 1)))%nat by lia.
    cbn [replicate].
    rewrite !take_ge
      by (rewrite ?length_app; cbn [length];
          rewrite ?length_app, ?length_replicate; cbn [length]; lia).
    rewrite <- (Nat.add_0_r (length w)) at 1.
    rewrite insert_app_r. cbn. by rewrite <- app_assoc.
  - replace (L - length w)%nat with 0%nat by lia.
    replace (L - (length w + 1))%nat with 0%nat by lia.
    cbn [replicate]. rewrite !app_nil_r.
    rewrite list_insert_ge by (rewrite length_take; lia).
    by rewrite take_app_le.
Qed.

Lemma put_all_written L src :
  forall w,
    U8.put_all (written L w) src =
      written L (w ++ ((fun v => v mod 256) <$> src)).
Proof.
  unfold U8.put_all.
  induction src as [| v src IH]; intros w; cbn [fold_left fmap list_fmap].
  - by rewrite app_nil_r.
  - rewrite put_written, IH. by rewrite <- app_assoc.
Qed.

Lemma put_opt_written L w x :
  put_opt (written L w) x =
    written L (w ++ ((fun v => v mod 256) <$> default [] x)).
Proof.
  destruct x as [l |]; simpl.
  - apply put_all_written.
  - by rewrite app_nil_r.
Qed.

Lemma subarray_written L w :
  U8.subarray0 (written L w).2 (written L w).1 = take L w.
Proof.
  unfold U8.subarray0, written. cbn [fst snd]. rewrite take_take.
  destruct (Nat.le_ge_cases (length w) L) as [Hle | Hge].
  - rewrite Nat.min_l by done.
    by rewrite take_app_length, take_ge.
  - rewrite Nat.min_r by done. by rewrite take_app_le.
Qed.

(** [buildPacket] returns the stored bytes cut at the size of the buffer
    it allocated, [4 + remainLen]. *)
Lemma buildPacket_stored type flags header payload :
  buildPacket type flags header payload =
    take (Z.to_nat (4 + (lengthOr0 header + lengthOr0 payload)))
      (stored type flags header payload).
Proof.
  unfold buildPacket. cbv zeta.
  rewrite make_written, put_written, put_all_written, !put_opt_written.
  rewrite subarray_written. unfold stored, fixedHeaderByte.
  by rewrite <- !app_assoc.
Qed.

Lemma lengthOr0_length x :
  lengthOr0 x = Z.of_nat (length (default [] x)).
Proof. by destruct x. Qed.

Lemma stored_length type flags header payload :
  Z.of_nat (length (stored type flags header payload)) =
    1 + Z.of_nat (length (encodeRemainingLength
                            (lengthOr0 header + lengthOr0 payload)))
      + (lengthOr0 header + lengthOr0 payload).
Proof.
  unfold stored. cbn [length].
  rewrite !length_app, !length_fmap, !lengthOr0_length. lia.
Qed.

Lemma buildPacket_length type flags header payload :
  let remainLen := lengthOr0 header + lengthOr0 payload in
  Z.of_nat (length (buildPacket type flags header payload)) =
    Z.min (4 + remainLen)
      (1 + Z.of_nat (length (encodeRemainingLength remainLen)) + remainLen).
Proof.
  intros remainLen. rewrite buildPacket_stored, length_take.
  rewrite Nat2Z.inj_min, stored_length. fold remainLen.
  assert (0 <= remainLen)
    by (unfold remainLen; rewrite !lengthOr0_length; lia).
  rewrite Z2Nat.id by lia. done.
Qed.

(** The bytes of a length field are bytes. *)
Lemma encodeLoop_bytes fuel :
  forall n, 0 <= n < 2 ^ 31 ->
    (fun v => v mod 256) <$> encodeLoop fuel n = encodeLoop fuel n.
Proof.
  induction fuel as [| fuel IH]; intros n Hn; [done |].
  rewrite encodeLoop_step, shr7_div, rem128_mod by lia.
  pose proof (Z.mod_pos_bound n 128 ltac:(lia)) as Hb.
  destruct (Z.ltb_spec 0 (n / 128)) as [Hq | Hq]; cbn [fmap list_fmap].
  - rewrite IH by (Z.div_mod_to_equations; lia).
    f_equal. unfold JS.bor.
    rewrite !toInt32_small, lor_128 by lia. apply Z.mod_small. lia.
  - f_equal. apply Z.mod_small. lia.
Qed.

(** Below 2097152 bytes of content everything stored fits, and the
    packet is the fixed header byte, the length field, the variable
    header and the payload. *)
Lemma buildPacket_layout type flags header payload :
  let remainLen := lengthOr0 header + lengthOr0 payload in
  remainLen < 2097152 ->
  buildPacket type flags header payload =
    fixedHeaderByte type flags :: encodeRemainingLength remainLen ++
    ((fun v => v mod 256) <$> default [] header) ++
    ((fun v => v mod 256) <$> default [] payload).
Proof.
  intros remainLen Hlt.
  assert (0 <= remainLen)
    by (unfold remainLen; rewrite !lengthOr0_length; lia).
  rewrite buildPacket_stored. fold remainLen.
  rewrite take_ge.
  - unfold stored. fold remainLen.
    unfold encodeRemainingLength. by rewrite encodeLoop_bytes by lia.
  - apply Nat2Z.inj_le. rewrite stored_length. fold remainLen.
    rewrite encodeRemainingLength_length by lia.
    unfold minimalLength.
    repeat match goal with |- context [?a <? ?b] =>
      destruct (Z.ltb_spec a b) end; lia.
Qed.

(** Cutting one element off the end of a constant tail. *)
Lemma take_replicate_tail (k : nat) (x : Z) (pre : list Z) :
  take (length pre + k) (pre ++ replicate (S k) x) = pre ++ replicate k x.
Proof.
  rewrite take_app_ge by lia. f_equal.
  replace (length pre + k - length pre)%nat with k by lia.
  replace (S k) with (k + 1)%nat by lia.
  rewrite replicate_add, take_app_length'; [done |].
  by rewrite length_replicate.
Qed.

End Buffer.

(** ** Claims about the codec *)

(** C1.  For every [n] in [0, 2^28 - 1], the decoder of [_receivePacket]
    run on the length field that [buildPacket] writes for [n] (after any
    first byte, before any body) stops right after that field with the
    value [n]; the field has 1 byte for [n < 128], 2 for [n < 16384], 3 for
    [n < 2097152] and 4 otherwise; and the decoder never yields [n] after
    moving its cursor over fewer places. *)
Theorem remaining_length_roundtrip (n b0 : Z) (rest : list Z) :
  0 <= n < 2 ^ 28 ->
  decodeRemainingLength (b0 :: encodeRemainingLength n ++ rest) =
    (1 + Z.of_nat (length (encodeRemainingLength n)), n) /\
  Z.of_nat (length (encodeRemainingLength n)) =
    (if n <? 128 then 1
     else if n <? 16384 then 2
     else if n <? 2097152 then 3
     else 4) /\
  (forall bs p p',
      decodeLoop bs p 0 1 = (p', n) ->
      Z.of_nat (length (encodeRemainingLength n)) <= p' - p).
Proof.
  intros Hn. split; [| split].
  - unfold decodeRemainingLength.
    change (drop 1 (b0 :: encodeRemainingLength n ++ rest))
      with (encodeLoop 5 n ++ rest).
    unfold encodeRemainingLength.
    rewrite (decodeLoop_encodeLoop 4)
      by (change (128 ^ Z.of_nat 5) with (2 ^ 35); lia).
    f_equal. lia.
  - by apply encodeRemainingLength_length.
  - intros bs p p' Hdec.
    pose proof (decodeLoop_bound bs p 0 1 ltac:(lia)) as [Hp Hub].
    rewrite Hdec in Hp, Hub. cbn [fst snd] in Hp, Hub.
    rewrite encodeRemainingLength_length by done.
    unfold minimalLength.
    assert (p' - p = 1 \/ p' - p = 2 \/ p' - p = 3 \/ 4 <= p' - p)
      as [Hk | [Hk | [Hk | Hk]]] by lia;
      [rewrite Hk in Hub; change (128 ^ 1) with 128 in Hub
      |rewrite Hk in Hub; change (128 ^ 2) with 16384 in Hub
      |rewrite Hk in Hub; change (128 ^ 3) with 2097152 in Hub
      |clear Hub];
      repeat match goal with |- context [?a <? ?b] =>
        destruct (Z.ltb_spec a b) end; lia.
Qed.

Lemma remaining_length_roundtrip_witness :
  0 <= 321 < 2 ^ 28 /\
  decodeRemainingLength (48 :: encodeRemainingLength 321 ++ [7; 7]) =
    (1 + Z.of_nat (length (encodeRemainingLength 321)), 321).
Proof.
  split; [lia |].
  apply (remaining_length_roundtrip 321 48 [7; 7]). lia.
Defined.

(** C2.  [buildPacket] on a variable header of 2097152 bytes, the first
    size whose length field takes four bytes: the buffer it allocates has
    [4 + remainLen] bytes, the last byte stored falls outside it, and the
    packet returned has 2097156 bytes, one fewer than the fixed header
    byte, the four length bytes and the 2097152 header bytes. *)
Theorem buildPacket_drops_last_byte :
  let header := replicate (Z.to_nat 2097152) 1 in
  let packet := buildPacket PACKET_TYPE_PUBLISH 0 (Some header) None in
  encodeRemainingLength (lengthOr0 (Some header) + lengthOr0 None) =
    [128; 128; 128; 1] /\
  Z.of_nat (length packet) = 2097156 /\
  Z.of_nat (length packet) <>
    1 + Z.of_nat (length (encodeRemainingLength
                            (lengthOr0 (Some header) + lengthOr0 None)))
      + (lengthOr0 (Some header) + lengthOr0 None) /\
  packet = [48; 128; 128; 128; 1] ++ replicate (Z.to_nat 2097151) 1.
Proof.
  intros header packet.
  assert (lengthOr0 (Some header) + lengthOr0 None = 2097152) as Hlen.
  { unfold lengthOr0, header. rewrite length_replicate, Z2Nat.id; lia. }
  assert (encodeRemainingLength 2097152 = [128; 128; 128; 1]) as Henc
    by reflexivity.
  assert (Z.of_nat (length packet) = 2097156) as Hpl.
  { unfold packet. rewrite buildPacket_length, Hlen, Henc. reflexivity. }
  rewrite Hlen, Henc, Hpl.
  split; [reflexivity |]. split; [reflexivity |].
  split; [cbn [length]; lia |].
  unfold packet. rewrite buildPacket_stored, Hlen. unfold stored.
  rewrite Hlen, Henc. unfold header. cbn [default from_option]. unfold id.
  rewrite fmap_replicate.
  change ((fun v : Z => v mod 256) <$> [128; 128; 128; 1])
    with [128; 128; 128; 1].
  change ((fun v : Z => v mod 256) <$> []) with (@nil Z).
  change (fixedHeaderByte PACKET_TYPE_PUBLISH 0) with 48.
  change (1 mod 256) with 1. rewrite app_nil_r. cbn [app].
  assert (Z.to_nat 2097152 = S (Z.to_nat 2097151)) as -> by lia.
  assert (Z.to_nat (4 + 2097152) = (5 + Z.to_nat 2097151)%nat) as -> by lia.
  generalize (Z.to_nat 2097151). intros k.
  apply (take_replicate_tail k 1 [48; 128; 128; 128; 1]).
Qed.

(** ** The acknowledgment registry *)

Section Registry.

Lemma invoke_keeps_registry h err args c :
  match invoke h err args c with
  | Ok c' | TypeError c' =>
      _callbacks c' = _callbacks c /\ _nextId c' = _nextId c
  end.
Proof.
  destruct h as [| cb | topics cb | cb]; simpl.
  - destruct err; [done |].
    destruct args as [| f [[| [| |] | ] |] |]; done.
  - by destruct cb, err.
  - destruct cb; [| done]. destruct err; [done |].
    destruct args as [| [f |] rc | r]; try done; by destruct topics.
  - by destruct cb, err.
Qed.

(** An acknowledgment on the wire: fixed header, remaining length 2, the
    identifier. *)
Lemma ack_frame t k :
  0 <= k < 65536 ->
  buildPacket t 0 (Some (ntob k)) None =
    [fixedHeaderByte t 0; 2; k / 256; k mod 256].
Proof.
  intros Hk. rewrite buildPacket_layout by (simpl; lia).
  rewrite ntob_16 by done. cbn [default from_option lengthOr0 length].
  change (encodeRemainingLength (Z.of_nat 2 + 0)) with [2].
  cbn [app]. unfold id. rewrite app_nil_r.
  change ((fun v : Z => v mod 256) <$> [k / 256; k mod 256])
    with [(k / 256) mod 256; (k mod 256) mod 256].
  assert (0 <= k / 256 < 256)
    by (split; [apply Z.div_pos | apply Z.div_lt_upper_bound]; lia).
  pose proof (Z.mod_pos_bound k 256 ltac:(lia)).
  by rewrite (Z.mod_small (k / 256)), (Z.mod_small (k mod 256)) by lia.
Qed.

Lemma parse_short_frame b0 x y :
  parse [b0; 2; x; y] = Frame (JS.shr b0 4) (JS.band b0 15) 2 [x; y].
Proof. reflexivity. Qed.

Lemma bton_id_bytes k :
  0 <= k < 65536 -> bton (U8.slice [k / 256; k mod 256] 0 2) = k.
Proof.
  intros Hk. change (U8.slice [k / 256; k mod 256] 0 2)
    with ([k / 256; k mod 256] ++ []).
  rewrite <- ntob_16 by done. by apply bton_ntob.
Qed.

(** What [_handleAck] does with a two-byte body carrying [k]. *)
Lemma handleAck_id k c :
  0 <= k < 65536 ->
  _handleAck [k / 256; k mod 256] c =
    match _callbacks c !! k with
    | Some h =>
        bind (invoke h None (ArgsAck []) c) (fun c =>
          Ok (set_callbacks (delete k (_callbacks c)) c))
    | None => Ok c
    end.
Proof.
  intros Hk. unfold _handleAck. by rewrite bton_id_bytes.
Qed.

(** An acknowledgment handled once is dropped when it arrives again. *)
Lemma handleAck_twice data c c1 :
  _handleAck data c = Ok c1 -> _handleAck data c1 = Ok c1.
Proof.
  unfold _handleAck.
  generalize (bton (U8.slice data 0 2)), (drop 2 data). intros k r.
  destruct (_callbacks c !! k) as [h |] eqn:Hh.
  - pose proof (invoke_keeps_registry h None (ArgsAck r) c) as Hinv.
    destruct (invoke h None (ArgsAck r) c) as [c' | c']; cbn [bind];
      [| done].
    intros [= <-]. cbn [_callbacks set_callbacks].
    by rewrite lookup_delete_eq.
  - intros [= <-]. by rewrite Hh.
Qed.

End Registry.

(** ** Claims about the handshakes *)

(** C6.  A CONNACK received while the connect handshake is pending (the
    connect closure is registered under identifier 0): return code 0 emits
    [connect] with body byte 0 as the session flags; return codes 1 to 5
    emit [error] with their own message, 5 being "Client not authorized";
    every other return code emits [error] "Connection failed". *)
Theorem connack_outcome (c : Client) (b0 flags returnCode : Z) :
  _callbacks c !! 0 = Some HConnect ->
  JS.shr b0 4 = PACKET_TYPE_CONNACK ->
  let connack := [b0; 2; flags; returnCode] in
  (returnCode = 0 ->
   _receivePacket connack c = Ok (emit (EmitConnect (Some flags)) c)) /\
  (returnCode = 1 ->
   _receivePacket connack c =
     Ok (emit (EmitError "Unsupported protocol level") c)) /\
  (returnCode = 2 ->
   _receivePacket connack c =
     Ok (emit (EmitError "Invalid client identifier") c)) /\
  (returnCode = 3 ->
   _receivePacket connack c =
     Ok (emit (EmitError "Service unavailable") c)) /\
  (returnCode = 4 ->
   _receivePacket connack c =
     Ok (emit (EmitError "Malformed username or password") c)) /\
  (returnCode = 5 ->
   _receivePacket connack c =
     Ok (emit (EmitError "Client not authorized") c)) /\
  (returnCode < 0 \/ 5 < returnCode ->
   _receivePacket connack c =
     Ok (emit (EmitError "Connection failed") c)).
Proof.
  intros Hreg Htype connack.
  assert (_receivePacket connack c =
          invoke HConnect None (ArgsConnack (Some flags) (Some returnCode)) c)
    as ->.
  { unfold _receivePacket, connack. rewrite parse_short_frame.
    cbn [f_type f_body]. rewrite Htype. cbn [Z.eqb Pos.eqb PACKET_TYPE_CONNACK].
    by rewrite Hreg. }
  repeat split; intros Hrc; subst; try reflexivity.
  cbn [invoke].
  destruct returnCode as [| p | p]; [lia | | reflexivity].
  do 3 (try destruct p as [p | p |]); try lia; reflexivity.
Qed.

Lemma connack_outcome_witness :
  _callbacks connecting !! 0 = Some HConnect /\
  JS.shr 32 4 = PACKET_TYPE_CONNACK /\
  _receivePacket [32; 2; 1; 5] connecting =
    Ok (emit (EmitError "Client not authorized") connecting).
Proof.
  split; [reflexivity |]. split; [reflexivity |].
  exact (proj1 (proj2 (proj2 (proj2 (proj2 (proj2
    (connack_outcome connecting 32 1 5 eq_refl eq_refl)))))) eq_refl).
Defined.

(** C7, as the code has it.  When the transport signals closure the client
    emits [close] and does nothing else: every entry of the registry stays
    where it is and no completion is invoked. *)
Theorem onclose_only_emits (c : Client) :
  trace (onclose c) = trace c ++ [EmitClose] /\
  _callbacks (onclose c) = _callbacks c /\
  _nextId (onclose c) = _nextId c.
Proof. done. Qed.

(** C7 fails as stated: with the completions of identifiers 3 and 7
    pending, closure invokes neither of them and leaves both registered. *)
Lemma onclose_leaves_3_and_7_pending :
  _callbacks pending_3_7 !! 3 = Some (HPublish (Some 3%nat)) /\
  _callbacks pending_3_7 !! 7 = Some (HPublish (Some 7%nat)) /\
  _callbacks (onclose pending_3_7) !! 3 = Some (HPublish (Some 3%nat)) /\
  _callbacks (onclose pending_3_7) !! 7 = Some (HPublish (Some 7%nat)) /\
  trace (onclose pending_3_7) = trace pending_3_7 ++ [EmitClose].
Proof. repeat split; vm_compute; reflexivity. Qed.

(** C9.  The connect closure stays registered after a CONNACK: a CONNACK
    delivered twice runs it twice, and [connect] is emitted twice. *)
Theorem connack_twice_connects_twice :
  let connack := [32; 2; 0; 0] in
  match bind (_receivePacket connack connecting) (_receivePacket connack) with
  | Ok c =>
      trace c =
        trace connecting ++ [EmitConnect (Some 0); EmitConnect (Some 0)] /\
      _callbacks c !! 0 = Some HConnect
  | TypeError _ => False
  end.
Proof. vm_compute. split; reflexivity. Qed.

(** C10.  The CONNECT packet is built from a variable header that ends in
    the keep-alive field, and that field is [0; 1] whenever the configured
    [keepAlive] is truthy, whatever its value, and [0; 60] whenever it is
    absent or falsy. *)
Theorem connect_keepalive_field (o : options) (rand : JS.jsstring) :
  let c := constructor o rand in
  let field := if JS.truthy (keepAlive o) then [0; 1] else [0; 60] in
  let header :=
    [0; 4; 77; 81; 84; 84; 4; if JS.truthy (clean o) then 3 else 2] ++ field in
  ntob (toNumber (_keepAlive c)) = field /\
  _connect c =
    Ok (set_callbacks (<[0 := HConnect]> ∅)
          (emit (WsSend (buildPacket PACKET_TYPE_CONNECT 0 (Some header)
                           (Some (stolpb (_clientId c))))) c)).
Proof.
  intros c field header. unfold field, header, c, _connect, constructor.
  cbn [_keepAlive _clean _clientId].
  destruct (JS.truthy (keepAlive o)), (JS.truthy (clean o)); split; reflexivity.
Qed.

(** C3.  An inbound PUBLISH with QoS 2, topic "a", identifier 1 and no
    payload: the client emits the message and sends a PUBREC whose
    variable header is the whole body of the PUBLISH (topic length, topic
    and identifier), not the two identifier bytes. *)
Theorem publish_qos2_pubrec_carries_body (c : Client) :
  let publish2 := [52; 5; 0; 1; 97; 0; 1] in
  _receivePacket publish2 c =
    Ok (emit (WsSend [80; 5; 0; 1; 97; 0; 1]) (emit (EmitMessage [97] []) c)) /\
  [80; 5; 0; 1; 97; 0; 1] =
    buildPacket PACKET_TYPE_PUBREC 0 (Some (f_body (parse publish2))) None /\
  buildPacket PACKET_TYPE_PUBREC 0 (Some (ntob 1)) None = [80; 2; 0; 1].
Proof. repeat split. Qed.

(** The sibling path: an inbound PUBLISH with QoS 1 is answered by a
    PUBACK whose variable header is the identifier alone. *)
Lemma publish_qos1_puback_example (c : Client) :
  _receivePacket [50; 7; 0; 1; 97; 0; 9; 104; 105] c =
    Ok (emit (WsSend (buildPacket PACKET_TYPE_PUBACK 0 (Some (ntob 9)) None))
          (emit (EmitMessage [97] [104; 105]) c)).
Proof. reflexivity. Qed.

(** ** Claims about publish acknowledgments *)

Section Acks.

(** A stored closure called with an acknowledgment body returns. *)
Lemma invoke_ack_returns h response c :
  exists c',
    invoke h None (ArgsAck response) c = Ok c' /\
    _callbacks c' = _callbacks c.
Proof.
  destruct h as [| cb | topics cb | cb]; simpl; eauto;
    destruct cb; simpl; eauto.
Qed.

Lemma receive_ack t j c :
  t = PACKET_TYPE_PUBACK \/ t = PACKET_TYPE_PUBCOMP \/
  t = PACKET_TYPE_SUBACK \/ t = PACKET_TYPE_UNSUBACK ->
  0 <= j < 65536 ->
  _receivePacket (buildPacket t 0 (Some (ntob j)) None) c =
    match _callbacks c !! j with
    | Some h =>
        bind (invoke h None (ArgsAck []) c) (fun c =>
          Ok (set_callbacks (delete j (_callbacks c)) c))
    | None => Ok c
    end.
Proof.
  intros Ht Hj. rewrite ack_frame by done.
  unfold _receivePacket. rewrite parse_short_frame. cbn [f_type f_body].
  rewrite <- handleAck_id by done.
  destruct Ht as [-> | [-> | [-> | ->]]]; reflexivity.
Qed.


(** A publish with a positive QoS takes the next identifier, sends one
    packet that carries it and registers its closure under it. *)
Lemma publish_registers topic message opts callback c :
  0 < optQos opts -> 0 <= _nextId c ->
  publish topic message opts callback c =
    Ok (set_callbacks
          (<[_nextId c := HPublish callback]> (_callbacks c))
          (emit (WsSend
                   (buildPacket PACKET_TYPE_PUBLISH
                      (JS.bor (JS.bor (JS.shl (Z.b2z (optDup opts)) 3)
                                 (JS.shl (JS.band (optQos opts) 3) 1))
                         (Z.b2z (optRemain opts)))
                      (Some (stolpb topic ++ ntob (_nextId c)))
                      (messageBytes message)))
             (set_nextId (_nextId c + 1) c))).
Proof.
  intros Hq Hk. unfold publish.
  assert (optionsGiven opts = true) as ->
    by (destruct opts; [simpl in Hq; lia | done ..]).
  destruct (Z.ltb_spec 0 (optQos opts)); [| lia].
  destruct (Z.ltb_spec (-1) (_nextId c)); [| lia].
  unfold _sendPacket. cbn [_nextId emit set_nextId].
  destruct (Z.ltb_spec (-1) (_nextId c)); [| lia]. reflexivity.
Qed.



End Acks.






(** ** Claims about malformed input *)

Section Malformed.

Lemma band_127_range b : 0 <= JS.band b 127 < 128.
Proof.
  unfold JS.band. rewrite (toInt32_small 127) by lia.
  rewrite land_127. apply Z.mod_pos_bound. lia.
Qed.

Lemma lengthValue_nonneg bs : 0 <= lengthValue bs.
Proof.
  induction bs as [| b bs IH]; simpl; [lia |].
  pose proof (band_127_range b). lia.
Qed.

(** The decoder on any number of continuation bytes, followed either by
    the end of the buffer or by a byte without the continuation bit. *)
Lemma decodeLoop_field ls :
  forall tail p acc m,
    Forall (fun b => JS.band b 128 <> 0) ls ->
    (forall b, head tail = Some b -> JS.band b 128 = 0) ->
    decodeLoop (ls ++ tail) p acc m =
      (p + Z.of_nat (length ls) + 1,
       acc + m * lengthValue (ls ++ take 1 tail)).
Proof.
  induction ls as [| b ls IH]; intros tail p acc m Hcont Hlast.
  - destruct tail as [| last rest]; cbn [app decodeLoop length take].
    + f_equal; simpl; lia.
    + rewrite (Hlast last eq_refl). cbn [Z.eqb]. f_equal; simpl; lia.
  - apply Forall_cons in Hcont as [Hb Hcont].
    cbn [app decodeLoop]. destruct (Z.eqb_spec (JS.band b 128) 0); [done |].
    rewrite IH by done. cbn [length]. f_equal; [lia |].
    cbn [app lengthValue]. ring.
Qed.

End Malformed.

(** C8, as the code has it.  Parsing does not reject a malformed buffer.
    With [ls] the bytes of the length field that have the continuation bit
    set, as many as six of them, and [tail] what follows them, either
    nothing (the buffer ends inside the length field: the missing byte
    reads as 0 and the loop ends) or a byte without the continuation bit
    and the body: the head of [_receivePacket] yields the type, the flags,
    the value of all these length bytes as the declared remaining length,
    and as the body the part of what is available that the declared
    length covers, shorter than declared when the buffer is. *)
Theorem parse_accepts_malformed (b0 : Z) (ls tail : list Z) :
  (length ls <= 6)%nat ->
  Forall (fun b => JS.band b 128 <> 0) ls ->
  (forall b, head tail = Some b -> JS.band b 128 = 0) ->
  let n := lengthValue (ls ++ take 1 tail) in
  parse (b0 :: ls ++ tail) =
    Frame (JS.shr b0 4) (JS.band b0 15) n (take (Z.to_nat n) (drop 1 tail)).
Proof.
  intros Hlen Hcont Hlast n.
  unfold parse, decodeRemainingLength.
  change (drop 1 (b0 :: ls ++ tail)) with (ls ++ tail).
  rewrite decodeLoop_field by done. fold n.
  change (U8.getb (b0 :: ls ++ tail) 0) with b0.
  replace (0 + 1 * n) with n by lia. f_equal.
  pose proof (lengthValue_nonneg (ls ++ take 1 tail)) as Hn. fold n in Hn.
  unfold U8.slice, U8.clamp. cbn [length]. rewrite length_app.
  repeat match goal with |- context [?a <? ?b] =>
    destruct (Z.ltb_spec a b); [lia |] end.
  destruct tail as [| last rest].
  - cbn [length drop]. rewrite app_nil_r, take_nil.
    replace (Z.to_nat _) with 0%nat by lia. done.
  - cbn [length drop].
    replace (Z.to_nat (Z.min (1 + Z.of_nat (length ls) + 1)
               (Z.of_nat (S (length ls + S (length rest))))))
      with (S (length ls + 1)) by lia.
    cbn [drop]. rewrite drop_app_ge by lia.
    replace (length ls + 1 - length ls)%nat with 1%nat by lia.
    change (drop 1 (last :: rest)) with rest.
    change (drop 0 rest) with rest.
    destruct (Z.le_ge_cases n (Z.of_nat (length rest))).
    + f_equal. lia.
    + rewrite !take_ge by lia. done.
Qed.

Lemma parse_accepts_malformed_witness :
  (length [128; 128; 128; 128] <= 6)%nat /\
  parse (48 :: [128; 128; 128; 128] ++ [1; 9]) = Frame 3 0 268435456 [9].
Proof.
  split; [simpl; lia |].
  refine (parse_accepts_malformed 48 [128; 128; 128; 128] [1; 9] _ _ _).
  - simpl. lia.
  - repeat constructor; discriminate.
  - intros b [= <-]. reflexivity.
Defined.

(** C8 fails as stated: a buffer that ends inside the length field, a
    length field of five bytes and a body shorter than declared are all
    parsed, and the packets are handled without an error. *)
Lemma malformed_input_is_parsed :
  parse [64; 128] = Frame 4 0 0 [] /\
  parse [48; 128; 128; 128; 128; 1; 9] = Frame 3 0 268435456 [9] /\
  parse [48; 9; 0; 1; 97; 104] = Frame 3 0 9 [0; 1; 97; 104] /\
  _receivePacket [64; 128] client0 = Ok client0 /\
  _receivePacket [48; 128; 128; 128; 128; 1; 9] client0 =
    Ok (emit (EmitMessage [] []) client0) /\
  _receivePacket [48; 9; 0; 1; 97; 104] client0 =
    Ok (emit (EmitMessage [97] [104]) client0).
Proof. repeat split; vm_compute; reflexivity. Qed.

(** ** Packets that are well formed *)

Section WellFormed.

Lemma fmap_bytes (l : list Z) :
  Forall (fun b => 0 <= b < 256) l -> (fun v => v mod 256) <$> l = l.
Proof.
  induction 1 as [| b l Hb _ IH]; [done |].
  cbn [fmap list_fmap]. f_equal; [by apply Z.mod_small | apply IH].
Qed.

Lemma fixedHeaderByte_nibbles t f :
  0 <= t < 16 -> 0 <= f < 16 -> fixedHeaderByte t f = t * 16 + f.
Proof.
  intros Ht Hf. unfold fixedHeaderByte, JS.bor, JS.shl, JS.band.
  rewrite (toInt32_small t), (toInt32_small f), (toInt32_small 15) by lia.
  rewrite land_15, (Z.mod_small f) by lia.
  assert (Z.shiftl t 4 = t * 16) as Hs by (rewrite Z.shiftl_mul_pow2; lia).
  rewrite !(toInt32_small (Z.shiftl t 4)), (toInt32_small f) by lia.
  rewrite (lor_shiftl_low t f 4) by lia.
  change (2 ^ 4) with 16. apply Z.mod_small. lia.
Qed.

Lemma nibbles_split t f :
  0 <= t < 16 -> 0 <= f < 16 ->
  JS.shr (t * 16 + f) 4 = t /\ JS.band (t * 16 + f) 15 = f.
Proof.
  intros Ht Hf. split.
  - rewrite shr_small by lia. change (2 ^ 4) with 16.
    Z.div_mod_to_equations. lia.
  - unfold JS.band. rewrite !toInt32_small by lia. rewrite land_15.
    Z.div_mod_to_equations. lia.
Qed.

(** Parsing what [buildPacket] built gives back the type, the flags and
    the content, as long as the content stays below 2097152 bytes. *)
Lemma parse_buildPacket t f header payload :
  0 <= t < 16 -> 0 <= f < 16 ->
  Forall (fun b => 0 <= b < 256) (default [] header) ->
  Forall (fun b => 0 <= b < 256) (default [] payload) ->
  lengthOr0 header + lengthOr0 payload < 2097152 ->
  parse (buildPacket t f header payload) =
    Frame t f (lengthOr0 header + lengthOr0 payload)
      (default [] header ++ default [] payload).
Proof.
  intros Ht Hf Hh Hp Hn.
  rewrite buildPacket_layout by done.
  rewrite !fmap_bytes, fixedHeaderByte_nibbles by done.
  set (n := lengthOr0 header + lengthOr0 payload) in *.
  set (body := default [] header ++ default [] payload).
  assert (Z.of_nat (length body) = n) as Hbody
    by (unfold body, n; rewrite length_app, !lengthOr0_length; lia).
  assert (0 <= n) as Hn0 by lia.
  destruct (nibbles_split t f Ht Hf) as [Hhi Hlo].
  unfold parse, decodeRemainingLength.
  change (U8.getb ((t * 16 + f) :: encodeRemainingLength n ++ body) 0)
    with (t * 16 + f).
  change (drop 1 ((t * 16 + f) :: encodeRemainingLength n ++ body))
    with (encodeLoop 5 n ++ body).
  rewrite (decodeLoop_encodeLoop 4)
    by (change (128 ^ Z.of_nat 5) with (2 ^ 35); lia).
  rewrite Hhi, Hlo. replace (0 + n * 1) with n by lia. f_equal.
  fold (encodeRemainingLength n).
  set (enc := encodeRemainingLength n).
  unfold U8.slice, U8.clamp. cbn [length]. rewrite length_app.
  repeat match goal with |- context [?a <? ?b] =>
    destruct (Z.ltb_spec a b); [lia |] end.
  replace (Z.to_nat (Z.min (1 + Z.of_nat (length enc))
             (Z.of_nat (S (length enc + length body)))))
    with (S (length enc)) by lia.
  cbn [drop]. rewrite drop_app_length, take_ge; [done | lia].
Qed.

Lemma length_ntob x : length (ntob x) = 2%nat.
Proof. reflexivity. Qed.

Lemma ntob_bytes k :
  0 <= k < 65536 -> Forall (fun b => 0 <= b < 256) (ntob k).
Proof.
  intros Hk. rewrite ntob_16 by done.
  constructor; [| constructor; [| constructor]].
  - split; [apply Z.div_pos | apply Z.div_lt_upper_bound]; lia.
  - apply Z.mod_pos_bound. lia.
Qed.



End WellFormed.

(** * Further properties of the code *)

(** ** The codec beyond the protocol's limits *)

Section CodecEdges.

Lemma toInt32_mod_256 x : JS.toInt32 x mod 256 = x mod 256.
Proof. unfold JS.toInt32. Z.div_mod_to_equations. lia. Qed.

Lemma toInt32_div_256_mod x : (JS.toInt32 x / 256) mod 256 = (x / 256) mod 256.
Proof. unfold JS.toInt32. Z.div_mod_to_equations. lia. Qed.

Lemma band_255 x : JS.band x 255 = x mod 256.
Proof.
  unfold JS.band. rewrite (toInt32_small 255) by lia.
  by rewrite land_255, toInt32_mod_256.
Qed.

Lemma ntob_any n : ntob n = [(n / 256) mod 256; n mod 256].
Proof.
  unfold ntob. rewrite !band_255. unfold JS.shr.
  rewrite Z.shiftr_div_pow2 by lia. change (2 ^ 8) with 256.
  by rewrite toInt32_div_256_mod.
Qed.

Lemma encodeLoop_five n :
  2 ^ 28 <= n < 2 ^ 31 -> length (encodeRemainingLength n) = 5%nat.
Proof.
  intros Hn. unfold encodeRemainingLength.
  do 4 (rewrite encodeLoop_step, shr7_div by (Z.div_mod_to_equations; lia);
        match goal with |- context [0 <? ?q] =>
          destruct (Z.ltb_spec 0 q) as [_ | Hq];
            [| exfalso; Z.div_mod_to_equations; lia]
        end; cbn [length]).
  rewrite encodeLoop_step, shr7_div by (Z.div_mod_to_equations; lia).
  match goal with |- context [0 <? ?q] =>
    destruct (Z.ltb_spec 0 q) as [Hq | _];
      [exfalso; Z.div_mod_to_equations; lia | done]
  end.
Qed.

Lemma encodeLoop_length_bounds fuel n :
  (1 <= fuel)%nat ->
  (1 <= length (encodeLoop fuel n) <= fuel)%nat.
Proof.
  revert n. induction fuel as [| fuel IH]; intros n Hf; [lia |].
  rewrite encodeLoop_step. destruct (0 <? JS.shr n 7); cbn [length]; [| lia].
  destruct fuel as [| fuel']; [simpl; lia |].
  specialize (IH (JS.shr n 7) ltac:(lia)). lia.
Qed.

Lemma buildPacket_head type flags header payload :
  buildPacket type flags header payload !! 0%nat =
    Some (fixedHeaderByte type flags).
Proof.
  rewrite buildPacket_stored. unfold stored.
  assert (0 <= lengthOr0 header + lengthOr0 payload)
    by (rewrite !lengthOr0_length; lia).
  replace (Z.to_nat (4 + (lengthOr0 header + lengthOr0 payload)))
    with (S (Z.to_nat (3 + (lengthOr0 header + lengthOr0 payload)))) by lia.
  reflexivity.
Qed.

End CodecEdges.

(** X1.  Whenever the variable header and the payload together stay below
    2097152 bytes, [buildPacket] returns the fixed header byte, the length
    field, the low eight bits of each header element and the low eight
    bits of each payload element, in that order and with nothing else,
    and the packet has 1 + (length of the field) + (content size) bytes. *)
Theorem buildPacket_small_layout (type flags : Z)
  (header payload : option (list Z)) :
  let remainLen := lengthOr0 header + lengthOr0 payload in
  remainLen < 2097152 ->
  buildPacket type flags header payload =
    fixedHeaderByte type flags :: encodeRemainingLength remainLen ++
    ((fun v => v mod 256) <$> default [] header) ++
    ((fun v => v mod 256) <$> default [] payload) /\
  Z.of_nat (length (buildPacket type flags header payload)) =
    1 + minimalLength remainLen + remainLen.
Proof.
  intros remainLen Hlt.
  assert (0 <= remainLen)
    by (unfold remainLen; rewrite !lengthOr0_length; lia).
  split; [by apply buildPacket_layout |].
  rewrite buildPacket_length. fold remainLen.
  rewrite encodeRemainingLength_length by lia.
  unfold minimalLength.
  repeat match goal with |- context [?a <? ?b] =>
    destruct (Z.ltb_spec a b) end; lia.
Qed.

Lemma buildPacket_small_layout_witness :
  lengthOr0 (Some [0; 7]) + lengthOr0 (Some [300]) < 2097152 /\
  buildPacket PACKET_TYPE_SUBSCRIBE 2 (Some [0; 7]) (Some [300]) =
    [130; 3; 0; 7; 44].
Proof.
  split; [simpl; lia |].
  exact (proj1 (buildPacket_small_layout PACKET_TYPE_SUBSCRIBE 2
                  (Some [0; 7]) (Some [300]) ltac:(simpl; lia))).
Defined.

(** X2.  Parsing inverts assembly: for a type and flags of four bits each
    and byte content below 2097152 bytes, the head of [_receivePacket]
    applied to what [buildPacket] returned recovers the type, the flags,
    the content size as the remaining length and the content as the
    body. *)
Theorem parse_inverts_buildPacket (t f : Z) (header payload : option (list Z)) :
  0 <= t < 16 -> 0 <= f < 16 ->
  Forall (fun b => 0 <= b < 256) (default [] header) ->
  Forall (fun b => 0 <= b < 256) (default [] payload) ->
  lengthOr0 header + lengthOr0 payload < 2097152 ->
  parse (buildPacket t f header payload) =
    Frame t f (lengthOr0 header + lengthOr0 payload)
      (default [] header ++ default [] payload).
Proof. apply parse_buildPacket. Qed.

Lemma parse_inverts_buildPacket_witness :
  0 <= 9 < 16 /\ 0 <= 0 < 16 /\
  parse (buildPacket 9 0 (Some [0; 1]) (Some [1; 128])) =
    Frame 9 0 4 [0; 1; 1; 128].
Proof.
  split; [lia |]. split; [lia |].
  refine (parse_inverts_buildPacket 9 0 (Some [0; 1]) (Some [1; 128])
            _ _ _ _ _); try lia.
  - repeat constructor; lia.
  - repeat constructor; lia.
  - simpl. lia.
Defined.

(** X3.  [ntob] keeps the low sixteen bits of any integer, high byte
    first, and [bton] reads them back: a number and the same number
    reduced modulo 65536 give the same two bytes, and [bton] of those
    bytes is the number modulo 65536. *)
Theorem ntob_wraps_at_65536 (n : Z) (rest : list Z) :
  ntob n = [(n / 256) mod 256; n mod 256] /\
  ntob n = ntob (n mod 65536) /\
  bton (ntob n ++ rest) = n mod 65536.
Proof.
  split; [apply ntob_any |]. split.
  - rewrite !ntob_any. f_equal; [| f_equal];
      Z.div_mod_to_equations; lia.
  - rewrite ntob_any. cbn [app].
    rewrite bton_bytes by (apply Z.mod_pos_bound; lia).
    Z.div_mod_to_equations. lia.
Qed.

Lemma stolpb_fields (s : JS.jsstring) (rest : list Z) :
  Z.of_nat (length s) < 65536 ->
  bton (stolpb s ++ rest) = Z.of_nat (length s) /\
  U8.slice (stolpb s ++ rest) 2 (2 + bton (stolpb s ++ rest)) = s.
Proof.
  intros Hlen.
  assert (bton (stolpb s ++ rest) = Z.of_nat (length s)) as Hb.
  { unfold stolpb. rewrite <- app_assoc. apply bton_ntob. lia. }
  split; [done |]. rewrite Hb.
  unfold U8.slice, U8.clamp, stolpb, stob.
  rewrite !length_app, length_ntob.
  repeat match goal with |- context [?a <? ?b] =>
    destruct (Z.ltb_spec a b); [lia |] end.
  replace (Z.to_nat (Z.min 2 _))
    with (length (ntob (Z.of_nat (length s))))
    by (rewrite length_ntob; lia).
  replace (Z.to_nat _) with (length s) by (rewrite ?length_ntob; lia).
  rewrite <- app_assoc. by rewrite drop_app_length, take_app_length.
Qed.

(** X4.  A string shorter than 65536 code units survives [stolpb]: the
    first two bytes read back as its length and the slice of that length
    after them is the string. *)
Theorem stolpb_read_back (s : JS.jsstring) (rest : list Z) :
  Z.of_nat (length s) < 65536 ->
  bton (stolpb s ++ rest) = Z.of_nat (length s) /\
  U8.slice (stolpb s ++ rest) 2 (2 + bton (stolpb s ++ rest)) = s.
Proof. apply stolpb_fields. Qed.

Lemma stolpb_read_back_witness :
  Z.of_nat (length [97; 47; 98]) < 65536 /\
  bton (stolpb [97; 47; 98] ++ [0; 1]) = 3 /\
  U8.slice (stolpb [97; 47; 98] ++ [0; 1]) 2
    (2 + bton (stolpb [97; 47; 98] ++ [0; 1])) = [97; 47; 98].
Proof.
  split; [simpl; lia |].
  exact (stolpb_read_back [97; 47; 98] [0; 1] ltac:(simpl; lia)).
Defined.

(** X5.  The encoder has no upper limit: for a content size from 2^28 up
    to 2^31 - 1 it writes a length field of five bytes, one more than the
    protocol has, and the decoder still reads the size back from them. *)
Theorem length_field_above_protocol_limit (n b0 : Z) (rest : list Z) :
  2 ^ 28 <= n < 2 ^ 31 ->
  length (encodeRemainingLength n) = 5%nat /\
  decodeRemainingLength (b0 :: encodeRemainingLength n ++ rest) = (6, n).
Proof.
  intros Hn. split; [by apply encodeLoop_five |].
  unfold decodeRemainingLength.
  change (drop 1 (b0 :: encodeRemainingLength n ++ rest))
    with (encodeLoop 5 n ++ rest).
  rewrite (decodeLoop_encodeLoop 4)
    by (change (128 ^ Z.of_nat 5) with (2 ^ 35); lia).
  fold (encodeRemainingLength n). rewrite encodeLoop_five by done.
  f_equal. lia.
Qed.

Lemma length_field_above_protocol_limit_witness :
  2 ^ 28 <= 268435456 < 2 ^ 31 /\
  length (encodeRemainingLength 268435456) = 5%nat /\
  decodeRemainingLength (48 :: encodeRemainingLength 268435456 ++ []) =
    (6, 268435456).
Proof.
  split; [lia |].
  exact (length_field_above_protocol_limit 268435456 48 [] ltac:(lia)).
Defined.

(** X6.  The encoder loop ends for every number: five rounds always reach
    its exit, more rounds change nothing, and it has then written at least
    one and at most five bytes. *)
Theorem encoder_loop_ends (n : Z) (fuel : nat) :
  (5 <= fuel)%nat ->
  encodeLoop fuel n = encodeRemainingLength n /\
  (1 <= length (encodeRemainingLength n) <= 5)%nat.
Proof.
  intros Hf. split; [by apply encodeLoop_fuel |].
  apply encodeLoop_length_bounds. lia.
Qed.

Lemma encoder_loop_ends_witness :
  (5 <= 9)%nat /\
  encodeLoop 9 4294967301 = encodeRemainingLength 4294967301.
Proof.
  split; [lia |].
  exact (proj1 (encoder_loop_ends 4294967301 9 ltac:(lia))).
Defined.

(** X7.  [buildPacket] stores only the low eight bits of each element of
    the variable header and of the payload: two contents that agree
    modulo 256 element by element give the same packet, so a code unit
    above 255 in a topic or a message is sent truncated. *)
Theorem buildPacket_keeps_low_bytes (type flags : Z)
  (header1 header2 payload1 payload2 : list Z) :
  (fun v => v mod 256) <$> header1 = (fun v => v mod 256) <$> header2 ->
  (fun v => v mod 256) <$> payload1 = (fun v => v mod 256) <$> payload2 ->
  buildPacket type flags (Some header1) (Some payload1) =
    buildPacket type flags (Some header2) (Some payload2).
Proof.
  intros Hh Hp. rewrite !buildPacket_stored. unfold stored.
  cbn [lengthOr0 default from_option]. unfold id.
  pose proof (f_equal length Hh) as Hlh. rewrite !length_fmap in Hlh.
  pose proof (f_equal length Hp) as Hlp. rewrite !length_fmap in Hlp.
  by rewrite Hlh, Hlp, Hh, Hp.
Qed.

Lemma buildPacket_keeps_low_bytes_witness :
  (fun v => v mod 256) <$> stolpb [8364] =
    (fun v => v mod 256) <$> stolpb [172] /\
  (fun v => v mod 256) <$> [104] = (fun v => v mod 256) <$> [360] /\
  buildPacket PACKET_TYPE_PUBLISH 0 (Some (stolpb [8364])) (Some [104]) =
    buildPacket PACKET_TYPE_PUBLISH 0 (Some (stolpb [172])) (Some [360]).
Proof.
  split; [reflexivity |]. split; [reflexivity |].
  exact (buildPacket_keeps_low_bytes PACKET_TYPE_PUBLISH 0
           (stolpb [8364]) (stolpb [172]) [104] [360] eq_refl eq_refl).
Defined.

(** ** Requests and their acknowledgments *)

Section Requests.

Lemma band_3 x : JS.band x 3 = x mod 4.
Proof.
  unfold JS.band. rewrite (toInt32_small 3) by lia.
  rewrite (Z.land_ones _ 2) by lia. change (2 ^ 2) with 4.
  unfold JS.toInt32. Z.div_mod_to_equations. lia.
Qed.

Lemma sendPacket_register data pid h c :
  0 <= pid ->
  _sendPacket data pid (Some h) c =
    Ok (set_callbacks (<[pid := h]> (_callbacks c)) (emit (WsSend data) c)).
Proof.
  intros Hp. unfold _sendPacket.
  by destruct (Z.ltb_spec (-1) pid); [| lia].
Qed.

(** The payload loops of [subscribe] and [unsubscribe] append one entry
    per topic, in order. *)
Lemma subscribe_fold flags topics :
  forall acc,
    fold_left (fun data topic =>
      match topic with
      | TopicObj t q => data ++ stolpb t ++ [JS.band q 3]
      | TopicStr t => data ++ stolpb t ++ [flags]
      end) topics acc =
    acc ++ flat_map (subscribeEntry flags) topics.
Proof.
  induction topics as [| topic topics IH]; intros acc; cbn [fold_left flat_map].
  - by rewrite app_nil_r.
  - rewrite IH. by destruct topic; rewrite <- app_assoc.
Qed.

Lemma unsubscribe_fold (topics : list JS.jsstring) :
  forall acc,
    fold_left (fun data topic => data ++ stolpb topic) topics acc =
    acc ++ flat_map stolpb topics.
Proof.
  induction topics as [| topic topics IH]; intros acc; cbn [fold_left flat_map].
  - by rewrite app_nil_r.
  - rewrite IH. by rewrite <- app_assoc.
Qed.

Lemma slice_id_prefix k rest :
  U8.slice (ntob k ++ rest) 0 2 = ntob k.
Proof.
  unfold U8.slice, U8.clamp. rewrite length_app, length_ntob.
  change (0 <? 0) with false. change (2 <? 0) with false. cbv iota.
  replace (Z.to_nat (Z.min 0 _)) with 0%nat by lia.
  replace (Z.to_nat _) with (length (ntob k)) by (rewrite length_ntob; lia).
  cbn [drop]. apply take_app_length.
Qed.

(** What [_handleAck] does with a body that starts with the identifier
    [k]. *)
Lemma handleAck_body k rest c :
  0 <= k < 65536 ->
  _handleAck (ntob k ++ rest) c =
    match _callbacks c !! k with
    | Some h =>
        bind (invoke h None (ArgsAck rest) c) (fun c =>
          Ok (set_callbacks (delete k (_callbacks c)) c))
    | None => Ok c
    end.
Proof.
  intros Hk. unfold _handleAck. rewrite slice_id_prefix.
  assert (bton (ntob k) = k) as ->
    by (rewrite <- (app_nil_r (ntob k)); by apply bton_ntob).
  by change (drop 2 (ntob k ++ rest)) with rest.
Qed.

Lemma receive_ackType data c :
  ackType (f_type (parse data)) ->
  _receivePacket data c = _handleAck (f_body (parse data)) c.
Proof.
  intros Ht. unfold _receivePacket.
  by destruct Ht as [-> | [-> | [-> | ->]]].
Qed.

End Requests.

(** X8.  A publish that is given an options argument (a function, a
    number or an object) and whose QoS is not positive is fire-and-forget:
    it sends one PUBLISH without an identifier, invokes the user's
    callback, if there is one, at once and with no argument, and leaves
    the registry and the identifier counter as they were. *)
Theorem publish_qos0_completes_at_once
  (c : Client) (topic : JS.jsstring) (message : option JS.jsstring)
  (opts : publishOptions) (callback : option ucb) :
  optionsGiven opts = true ->
  optQos opts <= 0 ->
  let flags :=
    JS.bor (JS.bor (JS.shl (Z.b2z (optDup opts)) 3)
              (JS.shl (JS.band (optQos opts) 3) 1))
      (Z.b2z (optRemain opts)) in
  exists c1,
    publish topic message opts callback c = Ok c1 /\
    trace c1 =
      trace c ++
      WsSend (buildPacket PACKET_TYPE_PUBLISH flags (Some (stolpb topic))
                (messageBytes message)) ::
      match callback with Some f => [UserCall f UNoArgs] | None => [] end /\
    _callbacks c1 = _callbacks c /\
    _nextId c1 = _nextId c.
Proof.
  intros Hgiven Hq flags. eexists. unfold publish. rewrite Hgiven.
  destruct (Z.ltb_spec 0 (optQos opts)); [lia |].
  change (-1 <? -1) with false. cbv iota. unfold _sendPacket.
  change (-1 <? -1) with false. cbv iota. cbn [invoke].
  split; [reflexivity |].
  destruct callback; cbn [notify trace emit _callbacks _nextId];
    rewrite <- ?app_assoc; done.
Qed.

Lemma publish_qos0_completes_at_once_witness :
  optionsGiven PubFunction = true /\
  optQos PubFunction <= 0 /\
  exists c1,
    publish [97; 47; 98] (Some [104; 105]) PubFunction (Some 4%nat) client0
      = Ok c1 /\
    trace c1 =
      trace client0 ++
      [WsSend (buildPacket PACKET_TYPE_PUBLISH 0 (Some (stolpb [97; 47; 98]))
                 (messageBytes (Some [104; 105])));
       UserCall 4%nat UNoArgs].
Proof.
  split; [reflexivity |]. split; [simpl; lia |].
  destruct (publish_qos0_completes_at_once client0 [97; 47; 98]
              (Some [104; 105]) PubFunction (Some 4%nat) eq_refl
              ltac:(simpl; lia))
    as (c1 & H1 & H2 & _).
  exists c1. auto.
Defined.

(** X9.  A publish whose options argument is missing ([undefined] or
    [null]) throws before anything is sent and leaves the client as it
    was.  Every other publish sends a packet whose first byte is the
    PUBLISH type in the high nibble and, below it, the dup flag in bit 3,
    the low two bits of the QoS in bits 2 and 1 and the retain flag in
    bit 0. *)
Theorem publish_first_byte
  (c : Client) (topic : JS.jsstring) (message : option JS.jsstring)
  (opts : publishOptions) (callback : option ucb) :
  optionsGiven opts = true ->
  publish topic message PubMissing callback c = TypeError c /\
  exists c1 packet rest,
    publish topic message opts callback c = Ok c1 /\
    trace c1 = trace c ++ WsSend packet :: rest /\
    packet !! 0%nat =
      Some (48 + 8 * Z.b2z (optDup opts) + 2 * (optQos opts mod 4)
            + Z.b2z (optRemain opts)).
Proof.
  intros Hgiven. split; [reflexivity |].
  assert (forall h p,
    buildPacket PACKET_TYPE_PUBLISH
      (JS.bor (JS.bor (JS.shl (Z.b2z (optDup opts)) 3)
                 (JS.shl (JS.band (optQos opts) 3) 1))
         (Z.b2z (optRemain opts))) h p !! 0%nat =
    Some (48 + 8 * Z.b2z (optDup opts) + 2 * (optQos opts mod 4)
          + Z.b2z (optRemain opts))) as Hhead.
  { intros h p. rewrite buildPacket_head. f_equal. rewrite band_3.
    pose proof (Z.mod_pos_bound (optQos opts) 4 ltac:(lia)) as Hm.
    assert (optQos opts mod 4 = 0 \/ optQos opts mod 4 = 1 \/
            optQos opts mod 4 = 2 \/ optQos opts mod 4 = 3)
      as [-> | [-> | [-> | ->]]] by lia;
      destruct (optDup opts), (optRemain opts); reflexivity. }
  unfold publish, _sendPacket. rewrite Hgiven.
  destruct callback;
    (destruct (0 <? optQos opts);
      [destruct (-1 <? _nextId c); cbn [_nextId set_nextId emit];
       [destruct (-1 <? _nextId c) |] |
       change (-1 <? -1) with false; cbv iota]);
    cbn [invoke notify]; eexists _, _, _;
    (split; [reflexivity |]);
    (split; [| apply Hhead]);
    cbn [trace emit set_callbacks set_nextId];
    rewrite <- ?app_assoc; reflexivity.
Qed.

Lemma publish_first_byte_witness :
  optionsGiven (PubObject true 1 true) = true /\
  publish [97] (Some [104]) PubMissing None client0 = TypeError client0 /\
  exists c1 packet rest,
    publish [97] (Some [104]) (PubObject true 1 true) None client0 = Ok c1 /\
    trace c1 = trace client0 ++ WsSend packet :: rest /\
    packet !! 0%nat = Some 59.
Proof.
  split; [reflexivity |].
  exact (publish_first_byte client0 [97] (Some [104]) (PubObject true 1 true)
           None eq_refl).
Defined.

(** X10.  [subscribe] takes the next identifier [k], sends one SUBSCRIBE
    with flags 2 whose variable header is [k] and whose payload is, for
    each topic in order, the topic length-prefixed and one QoS byte (the
    entry's own QoS for an object, the call's for a string, both masked
    to two bits), registers its closure under [k] and advances the
    counter by one. *)
Theorem subscribe_sends_entries_in_order
  (c : Client) (topics : list subtopic) (qos : option Z)
  (callback : option ucb) :
  0 <= _nextId c ->
  let k := _nextId c in
  exists c1,
    subscribe topics qos callback c = Ok c1 /\
    trace c1 =
      trace c ++
      [WsSend (buildPacket PACKET_TYPE_SUBSCRIBE 2 (Some (ntob k))
                 (Some (flat_map (subscribeEntry (default 0 qos mod 4))
                          topics)))] /\
    _callbacks c1 = <[k := HSubscribe topics callback]> (_callbacks c) /\
    _nextId c1 = k + 1.
Proof.
  intros Hk k. eexists. unfold subscribe.
  rewrite subscribe_fold, band_3. cbn [app].
  rewrite sendPacket_register by (cbn [_nextId set_nextId]; lia).
  split; [reflexivity |]. done.
Qed.

Lemma subscribe_sends_entries_in_order_witness :
  0 <= _nextId client0 /\
  exists c1,
    subscribe [TopicStr [120]; TopicObj [121] 2] (Some 1) None client0
      = Ok c1 /\
    trace c1 =
      trace client0 ++
      [WsSend (buildPacket PACKET_TYPE_SUBSCRIBE 2 (Some (ntob 1))
                 (Some [0; 1; 120; 1; 0; 1; 121; 2]))].
Proof.
  split; [simpl; lia |].
  destruct (subscribe_sends_entries_in_order client0
              [TopicStr [120]; TopicObj [121] 2] (Some 1) None
              ltac:(simpl; lia))
    as (c1 & H1 & H2 & _).
  exists c1. auto.
Defined.

(** X11.  A SUBACK that carries the identifier of a pending subscribe
    invokes the user's callback once with the requested topics in request
    order, each paired with the byte at its position in the SUBACK body,
    whatever that byte is, or with nothing when the body is too short,
    and removes the entry. *)
Theorem suback_grants_in_request_order
  (c : Client) (topics : list subtopic) (f : ucb) (k : Z)
  (granted : list Z) :
  _callbacks c !! k = Some (HSubscribe topics (Some f)) ->
  0 <= k < 65536 ->
  Forall (fun b => 0 <= b < 256) granted ->
  Z.of_nat (length granted) < 2097150 ->
  exists c1,
    _receivePacket
      (buildPacket PACKET_TYPE_SUBACK 0 (Some (ntob k)) (Some granted)) c
      = Ok c1 /\
    trace c1 =
      trace c ++
      [UserCall f (UGranted (imap (fun i t => (t, granted !! i)) topics))] /\
    _callbacks c1 = delete k (_callbacks c).
Proof.
  intros Hreg Hk Hbytes Hlen. eexists.
  rewrite receive_ackType; rewrite parse_buildPacket;
    try (unfold PACKET_TYPE_SUBACK; lia); try done;
    try (by apply ntob_bytes);
    try (cbn [lengthOr0 length ntob]; lia);
    [| unfold ackType; cbn [f_type]; tauto].
  cbn [f_body default from_option]. unfold id.
  rewrite handleAck_body, Hreg by done. cbn [invoke bind].
  split; [reflexivity |]. done.
Qed.

Lemma suback_grants_in_request_order_witness :
  exists c0 c1,
    subscribe [TopicStr [120]; TopicStr [121]] (Some 1) (Some 5%nat) client0
      = Ok c0 /\
    _callbacks c0 !! 1 =
      Some (HSubscribe [TopicStr [120]; TopicStr [121]] (Some 5%nat)) /\
    _receivePacket
      (buildPacket PACKET_TYPE_SUBACK 0 (Some (ntob 1)) (Some [1; 128])) c0
      = Ok c1 /\
    trace c1 =
      trace c0 ++
      [UserCall 5%nat
         (UGranted [(TopicStr [120], Some 1); (TopicStr [121], Some 128)])].
Proof.
  eexists. 
  destruct (suback_grants_in_request_order
              (andThen client0
                 (subscribe [TopicStr [120]; TopicStr [121]] (Some 1)
                    (Some 5%nat)))
              [TopicStr [120]; TopicStr [121]] 5%nat 1 [1; 128]
              eq_refl ltac:(lia)
              ltac:(repeat constructor; lia) ltac:(simpl; lia))
    as (c1 & H1 & H2 & _).
  exists c1. split; [reflexivity |]. split; [reflexivity |]. auto.
Defined.

(** X12.  While the identifier counter [k] is below 65536, [unsubscribe]
    takes [k], sends one UNSUBSCRIBE with flags 2 whose variable header is
    [k] and whose payload is the topics, each length-prefixed, in order,
    and registers its closure under [k]; the UNSUBACK that carries [k]
    then invokes the user's callback once with no argument and removes
    the entry. *)
Theorem unsubscribe_then_unsuback
  (c : Client) (topics : list JS.jsstring) (callback : option ucb) (k : Z) :
  _nextId c = k -> 0 <= k < 65536 ->
  exists c1 c2,
    unsubscribe topics callback c = Ok c1 /\
    trace c1 =
      trace c ++
      [WsSend (buildPacket PACKET_TYPE_UNSUBSCRIBE 2 (Some (ntob k))
                 (Some (flat_map stolpb topics)))] /\
    _callbacks c1 !! k = Some (HUnsubscribe callback) /\
    _nextId c1 = k + 1 /\
    _receivePacket
      (buildPacket PACKET_TYPE_UNSUBACK 0 (Some (ntob k)) None) c1 = Ok c2 /\
    trace c2 =
      trace c1 ++
      match callback with Some f => [UserCall f UNoArgs] | None => [] end /\
    _callbacks c2 !! k = None.
Proof.
  intros Hid Hk. eexists _, _. unfold unsubscribe.
  rewrite unsubscribe_fold. cbn [app].
  rewrite sendPacket_register by (cbn [_nextId set_nextId]; lia).
  rewrite Hid. split; [reflexivity |].
  cbn [trace _callbacks _nextId set_callbacks emit set_nextId].
  split; [reflexivity |]. split; [apply lookup_insert_eq |].
  split; [reflexivity |].
  rewrite receive_ack by (auto || lia).
  cbn [_callbacks set_callbacks]. rewrite lookup_insert_eq.
  split; [reflexivity |].
  split; [| destruct callback; cbn; apply lookup_delete_eq].
  destruct callback; cbn; [reflexivity | by rewrite app_nil_r].
Qed.

Lemma unsubscribe_then_unsuback_witness :
  _nextId client0 = 1 /\ 0 <= 1 < 65536 /\
  exists c1,
    unsubscribe [[120]; [121; 122]] (Some 2%nat) client0 = Ok c1 /\
    trace c1 =
      trace client0 ++
      [WsSend (buildPacket PACKET_TYPE_UNSUBSCRIBE 2 (Some (ntob 1))
                 (Some [0; 1; 120; 0; 2; 121; 122]))].
Proof.
  split; [reflexivity |]. split; [lia |].
  destruct (unsubscribe_then_unsuback client0 [[120]; [121; 122]]
              (Some 2%nat) 1 eq_refl ltac:(lia))
    as (c1 & c2 & H1 & H2 & _).
  exists c1. auto.
Defined.

(** ** What calls do to the client *)

Section Calls.

Lemma keepsConfig_refl c : keepsConfig c c.
Proof. repeat split. exists []. by rewrite app_nil_r. Qed.

Lemma keepsConfig_trans c1 c2 c3 :
  keepsConfig c1 c2 -> keepsConfig c2 c3 -> keepsConfig c1 c3.
Proof.
  intros (H1 & H2 & H3 & evs & H4) (G1 & G2 & G3 & evs' & G4).
  repeat split; try congruence.
  exists (evs ++ evs'). by rewrite G4, H4, app_assoc.
Qed.

Lemma keepsConfig_emit ev c : keepsConfig c (emit ev c).
Proof. repeat split. by exists [ev]. Qed.

Lemma keepsConfig_set_callbacks m c : keepsConfig c (set_callbacks m c).
Proof. repeat split. exists []. by rewrite app_nil_r. Qed.

Lemma keepsConfig_set_nextId n c : keepsConfig c (set_nextId n c).
Proof. repeat split. exists []. by rewrite app_nil_r. Qed.

Lemma keepsConfig_notify cb err c : keepsConfig c (notify cb err c).
Proof.
  destruct cb as [f |]; [| apply keepsConfig_refl].
  destruct err; apply keepsConfig_emit.
Qed.

Lemma invoke_keepsConfig h err args c :
  match invoke h err args c with
  | Ok c' | TypeError c' => keepsConfig c c'
  end.
Proof.
  destruct h as [| cb | topics cb | cb]; cbn [invoke].
  - destruct err; [apply keepsConfig_emit |].
    destruct args as [| f [[| p | p] |] | r]; apply keepsConfig_emit.
  - apply keepsConfig_notify.
  - destruct cb; [| apply keepsConfig_refl].
    destruct err; [apply keepsConfig_emit |].
    destruct args as [| [f |] rc | r]; try apply keepsConfig_emit;
      destruct topics; first [apply keepsConfig_emit | apply keepsConfig_refl].
  - apply keepsConfig_notify.
Qed.

Lemma sendPacket_keepsConfig data pid cb c :
  match _sendPacket data pid cb c with
  | Ok c' | TypeError c' => keepsConfig c c'
  end.
Proof.
  unfold _sendPacket. destruct cb as [h |]; [| apply keepsConfig_emit].
  destruct (-1 <? pid).
  - eapply keepsConfig_trans;
      [apply keepsConfig_emit | apply keepsConfig_set_callbacks].
  - pose proof (invoke_keepsConfig h None ArgsNone (emit (WsSend data) c)).
    destruct (invoke h None ArgsNone (emit (WsSend data) c));
      (eapply keepsConfig_trans; [apply keepsConfig_emit | done]).
Qed.

Lemma handleAck_keepsConfig data c :
  match _handleAck data c with
  | Ok c' | TypeError c' => keepsConfig c c'
  end.
Proof.
  unfold _handleAck.
  generalize (bton (U8.slice data 0 2)), (drop 2 data). intros k r.
  destruct (_callbacks c !! k) as [h |]; [| apply keepsConfig_refl].
  pose proof (invoke_keepsConfig h None (ArgsAck r) c) as Hinv.
  destruct (invoke h None (ArgsAck r) c); cbn [bind]; [| done].
  eapply keepsConfig_trans; [done | apply keepsConfig_set_callbacks].
Qed.

Lemma receivePublish_returns flags remainLen data c :
  exists c',
    receivePublish flags remainLen data c = Ok c' /\
    _callbacks c' = _callbacks c /\ _nextId c' = _nextId c /\
    keepsConfig c c'.
Proof.
  unfold receivePublish, _sendPacket. cbv zeta.
  destruct (_ =? 1); [| destruct (_ =? 2)]; eexists;
    (split; [reflexivity |]); (split; [reflexivity |]);
    (split; [reflexivity |]);
    first [apply keepsConfig_emit
          | eapply keepsConfig_trans; apply keepsConfig_emit].
Qed.

Lemma receive_keepsConfig data c :
  match _receivePacket data c with
  | Ok c' | TypeError c' => keepsConfig c c'
  end.
Proof.
  unfold _receivePacket. generalize (parse data). intros fr.
  destruct (_ =? PACKET_TYPE_CONNACK).
  { destruct (_callbacks c !! 0); [| apply keepsConfig_refl].
    apply invoke_keepsConfig. }
  destruct (_ =? PACKET_TYPE_PUBLISH).
  { destruct (receivePublish_returns (f_flags fr) (f_remainLen fr)
                (f_body fr) c) as (c' & -> & _ & _ & Hk). done. }
  destruct (_ || _); [apply handleAck_keepsConfig |].
  destruct (_ =? PACKET_TYPE_PUBREC); [| apply keepsConfig_refl].
  apply sendPacket_keepsConfig.
Qed.

Lemma andThen_elim (P : Client -> Prop) c step :
  match step c with Ok c' | TypeError c' => P c' end -> P (andThen c step).
Proof. unfold andThen. by destruct (step c). Qed.

Lemma perform_keepsConfig e c : keepsConfig c (andThen c (perform e)).
Proof.
  apply andThen_elim.
  destruct e as [| data | | topic message opts cb | topics qos cb
                 | topics cb | |]; cbn [perform].
  - unfold _connect. apply sendPacket_keepsConfig.
  - apply receive_keepsConfig.
  - apply keepsConfig_emit.
  - unfold publish.
    destruct (optionsGiven opts); [| apply keepsConfig_refl].
    match goal with |- context [_sendPacket ?d ?p ?h ?c'] =>
      pose proof (sendPacket_keepsConfig d p h c') as Hs;
      destruct (_sendPacket d p h c')
    end;
      (eapply keepsConfig_trans; [| exact Hs]);
      destruct (0 <? optQos opts);
      first [apply keepsConfig_set_nextId | apply keepsConfig_refl].
  - unfold subscribe.
    match goal with |- context [_sendPacket ?d ?p ?h ?c'] =>
      pose proof (sendPacket_keepsConfig d p h c') as Hs;
      destruct (_sendPacket d p h c')
    end;
      (eapply keepsConfig_trans; [apply keepsConfig_set_nextId | exact Hs]).
  - unfold unsubscribe.
    match goal with |- context [_sendPacket ?d ?p ?h ?c'] =>
      pose proof (sendPacket_keepsConfig d p h c') as Hs;
      destruct (_sendPacket d p h c')
    end;
      (eapply keepsConfig_trans; [apply keepsConfig_set_nextId | exact Hs]).
  - apply keepsConfig_emit.
  - apply keepsConfig_emit.
Qed.

(** [_receivePacket] changes the registry only by removing the entry an
    acknowledgment names. *)
Lemma receive_registry data c :
  match _receivePacket data c with
  | Ok c' | TypeError c' =>
      _nextId c' = _nextId c /\
      (_callbacks c' = _callbacks c \/
       ackType (f_type (parse data)) /\
       _callbacks c' =
         delete (bton (U8.slice (f_body (parse data)) 0 2)) (_callbacks c))
  end.
Proof.
  unfold _receivePacket. generalize (parse data). intros fr.
  destruct (Z.eqb_spec (f_type fr) PACKET_TYPE_CONNACK) as [_ | _].
  { destruct (_callbacks c !! 0) as [h0 |]; [| by auto].
    pose proof (invoke_keeps_registry h0 None
      (ArgsConnack (f_body fr !! 0%nat) (f_body fr !! 1%nat)) c) as Hinv.
    destruct (invoke h0 None _ c); destruct Hinv; auto. }
  destruct (Z.eqb_spec (f_type fr) PACKET_TYPE_PUBLISH) as [_ | _].
  { destruct (receivePublish_returns (f_flags fr) (f_remainLen fr)
                (f_body fr) c) as (c' & -> & Hc & Hn & _). auto. }
  destruct (Z.eqb_spec (f_type fr) PACKET_TYPE_PUBACK) as [Ht | _];
    [| destruct (Z.eqb_spec (f_type fr) PACKET_TYPE_PUBCOMP) as [Ht | _];
    [| destruct (Z.eqb_spec (f_type fr) PACKET_TYPE_SUBACK) as [Ht | _];
    [| destruct (Z.eqb_spec (f_type fr) PACKET_TYPE_UNSUBACK) as [Ht | _]]]];
    cbn [orb].
  1-4: assert (ackType (f_type fr)) as Hack by (unfold ackType; tauto);
    unfold _handleAck;
    generalize dependent (bton (U8.slice (f_body fr) 0 2)); intros pid;
    (destruct (_callbacks c !! pid) as [h' |]; [| by auto]);
    pose proof (invoke_keeps_registry h' None (ArgsAck (drop 2 (f_body fr))) c)
      as Hinv;
    destruct (invoke_ack_returns h' (drop 2 (f_body fr)) c)
      as (c' & Hok & _);
    rewrite Hok in Hinv |- *; cbn [bind _nextId _callbacks set_callbacks];
    destruct Hinv as [-> ->]; auto.
  destruct (_ =? PACKET_TYPE_PUBREC); unfold _sendPacket; auto.
Qed.

Lemma perform_registryChange e c :
  1 <= _nextId c -> registryChange c (andThen c (perform e)).
Proof.
  intros Hn. unfold andThen.
  destruct e as [| data | | topic message opts cb | topics qos cb
                 | topics cb | |]; cbn [perform].
  - unfold _connect. rewrite sendPacket_register by lia.
    by apply change_connect.
  - pose proof (receive_registry data c) as Hr.
    destruct (_receivePacket data c) as [c' | c'];
      destruct Hr as [Hid [Hsame | [_ Hdel]]];
      first [by apply change_none | by eapply change_remove].
  - by apply change_none.
  - unfold publish.
    destruct (optionsGiven opts); [| by apply change_none].
    destruct (Z.ltb_spec 0 (optQos opts)).
    + destruct (Z.ltb_spec (-1) (_nextId c)); [| lia].
      rewrite sendPacket_register by (cbn; lia).
      by apply (change_request _ _ (HPublish cb)).
    + change (-1 <? -1) with false. cbv iota. unfold _sendPacket.
      change (-1 <? -1) with false. cbv iota. cbn [invoke].
      apply change_none; by destruct cb.
  - unfold subscribe. rewrite sendPacket_register by (cbn; lia).
    by apply (change_request _ _ (HSubscribe topics cb)).
  - unfold unsubscribe. rewrite sendPacket_register by (cbn; lia).
    by apply (change_request _ _ (HUnsubscribe cb)).
  - by apply change_none.
  - by apply change_none.
Qed.

Lemma registryOk_change c c' :
  registryOk c -> registryChange c c' -> registryOk c'.
Proof.
  intros [Hn Hreg] [Hc Hid | Hc Hid | h Hh Hc Hid | k Hc Hid];
    split; try lia; intros j hj; rewrite Hc, Hid.
  - apply Hreg.
  - destruct (decide (j = 0)) as [-> | Hne].
    + rewrite lookup_insert_eq. intros [= <-]. by left.
    + rewrite lookup_insert_ne by done. apply Hreg.
  - destruct (decide (j = _nextId c)) as [-> | Hne].
    + rewrite lookup_insert_eq. intros [= <-]. right. split; [lia | done].
    + rewrite lookup_insert_ne by done. intros Hj.
      destruct (Hreg j hj Hj) as [? | [? ?]]; [by left | right].
      split; [lia | done].
  - destruct (decide (j = k)) as [-> | Hne].
    + by rewrite lookup_delete_eq.
    + rewrite lookup_delete_ne by done. apply Hreg.
Qed.

Lemma reachable_registryOk c : reachable c -> registryOk c.
Proof.
  induction 1 as [o rand | c e _ IH].
  - split; [simpl; lia |]. intros k h Hk. simpl in Hk.
    by rewrite lookup_empty in Hk.
  - eapply registryOk_change; [done |].
    apply perform_registryChange, IH.
Qed.

End Calls.

Section Inbound.

Lemma invoke_connect_returns err args c :
  exists c', invoke HConnect err args c = Ok c'.
Proof.
  cbn [invoke]. destruct err; [by eexists |].
  destruct args as [| f [[| p | p] |] | r]; by eexists.
Qed.

Lemma bton_getb l :
  0 <= U8.getb l 0 < 256 -> 0 <= U8.getb l 1 < 256 ->
  bton l = U8.getb l 0 * 256 + U8.getb l 1.
Proof.
  intros Hhi Hlo. unfold bton, JS.bor, JS.shl.
  generalize dependent (U8.getb l 0). generalize dependent (U8.getb l 1).
  intros lo Hlo hi Hhi.
  rewrite (toInt32_small hi), (toInt32_small lo) by lia.
  assert (Z.shiftl hi 8 = hi * 256) as Hs
    by (rewrite Z.shiftl_mul_pow2; lia).
  rewrite !(toInt32_small (Z.shiftl hi 8)) by lia.
  rewrite (lor_shiftl_low hi lo 8) by lia. lia.
Qed.

Lemma getb_byte l i :
  Forall (fun b => 0 <= b < 256) l -> 0 <= U8.getb l i < 256.
Proof.
  intros Hl. unfold U8.getb.
  destruct (l !! i) as [b |] eqn:Hb; simpl; [| lia].
  by apply (Forall_lookup_1 _ _ _ _ Hl Hb).
Qed.

Lemma bton_range l :
  Forall (fun b => 0 <= b < 256) l -> 0 <= bton l < 65536.
Proof.
  intros Hl. pose proof (getb_byte l 0 Hl). pose proof (getb_byte l 1 Hl).
  rewrite bton_getb by done. lia.
Qed.

Lemma slice_bytes l from to :
  Forall (fun b => 0 <= b < 256) l ->
  Forall (fun b => 0 <= b < 256) (U8.slice l from to).
Proof. intros Hl. unfold U8.slice. by apply Forall_take, Forall_drop. Qed.

Lemma parse_body_bytes data :
  Forall (fun b => 0 <= b < 256) data ->
  Forall (fun b => 0 <= b < 256) (f_body (parse data)).
Proof.
  intros Hd. unfold parse. destruct (decodeRemainingLength data).
  cbn [f_body]. by apply slice_bytes.
Qed.

(** The body of a PUBLISH without an identifier. *)
Lemma publish0_fields topic payload :
  Z.of_nat (length topic) < 65536 ->
  let body := stolpb topic ++ payload in
  let n := Z.of_nat (length topic) in
  bton body = n /\
  U8.slice body 2 (2 + n) = topic /\
  U8.slice body (2 + n) (Z.of_nat (length body)) = payload.
Proof.
  intros Hlen body n.
  destruct (stolpb_fields topic payload Hlen) as [Hb Ht].
  fold body in Hb, Ht. fold n in Hb. rewrite Hb in Ht.
  split; [done |]. split; [done |].
  unfold U8.slice, U8.clamp, body, stolpb, stob.
  rewrite !length_app, length_ntob. fold n.
  repeat match goal with |- context [?a <? ?b] =>
    destruct (Z.ltb_spec a b); [lia |] end.
  replace (Z.to_nat (Z.min (2 + n) _))
    with (length (ntob n ++ topic))
    by (rewrite length_app, length_ntob; lia).
  replace (Z.to_nat _) with (length payload)
    by (rewrite ?length_app, ?length_ntob; lia).
  by rewrite drop_app_length, firstn_all.
Qed.

End Inbound.

(** X13.  An acknowledgment is handled at most once: when a PUBACK,
    PUBCOMP, SUBACK or UNSUBACK has been handled, nothing is registered
    under its identifier any more, and the same packet delivered again
    changes nothing. *)
Theorem acknowledgment_is_handled_once (data : list Z) (c c1 : Client) :
  ackType (f_type (parse data)) ->
  _receivePacket data c = Ok c1 ->
  _callbacks c1 !! bton (U8.slice (f_body (parse data)) 0 2) = None /\
  _receivePacket data c1 = Ok c1.
Proof.
  intros Ht. rewrite !receive_ackType by done. intros Hfirst.
  split; [| by apply handleAck_twice with c].
  unfold _handleAck in Hfirst.
  generalize dependent (bton (U8.slice (f_body (parse data)) 0 2)).
  intros pid Hfirst.
  destruct (_callbacks c !! pid) as [h |] eqn:Hpid;
    [| by injection Hfirst as <-].
  destruct (invoke_ack_returns h (drop 2 (f_body (parse data))) c)
    as (c' & Hinv & _).
  rewrite Hinv in Hfirst. cbn [bind] in Hfirst. injection Hfirst as <-.
  apply lookup_delete_eq.
Qed.

Lemma acknowledgment_is_handled_once_witness :
  let c := andThen client0 (publish [97] None (PubNumber 1) (Some 3%nat)) in
  let c1 := andThen c (_receivePacket [64; 2; 0; 1]) in
  ackType (f_type (parse [64; 2; 0; 1])) /\
  _receivePacket [64; 2; 0; 1] c = Ok c1 /\
  _receivePacket [64; 2; 0; 1] c1 = Ok c1.
Proof.
  intros c c1.
  assert (ackType (f_type (parse [64; 2; 0; 1]))) as Ht by (by left).
  split; [exact Ht |]. split; [reflexivity |].
  exact (proj2 (acknowledgment_is_handled_once [64; 2; 0; 1] c c1 Ht eq_refl)).
Defined.

(** X14.  A packet whose type has no case in [_receivePacket] (PINGRESP,
    an inbound PUBREL, and every type a client should not receive) is
    ignored: nothing is sent, emitted, invoked or changed. *)
Theorem unhandled_types_are_ignored (data : list Z) (c : Client) :
  ~ handledType (f_type (parse data)) ->
  _receivePacket data c = Ok c.
Proof.
  intros Hno. unfold _receivePacket, handledType in *.
  repeat match goal with |- context [?a =? ?b] =>
    destruct (Z.eqb_spec a b); [exfalso; tauto |] end.
  reflexivity.
Qed.

Lemma unhandled_types_are_ignored_witness :
  ~ handledType (f_type (parse [98; 2; 0; 1])) /\
  _receivePacket [98; 2; 0; 1] connecting = Ok connecting.
Proof.
  assert (~ handledType (f_type (parse [98; 2; 0; 1]))) as Hno.
  { unfold handledType. change (f_type (parse [98; 2; 0; 1])) with 6.
    unfold PACKET_TYPE_CONNACK, PACKET_TYPE_PUBLISH, PACKET_TYPE_PUBACK,
      PACKET_TYPE_PUBREC, PACKET_TYPE_PUBCOMP, PACKET_TYPE_SUBACK,
      PACKET_TYPE_UNSUBACK. lia. }
  split; [exact Hno |].
  exact (unhandled_types_are_ignored [98; 2; 0; 1] connecting Hno).
Defined.

(** X15.  [ping] and [disconnect] hand the socket the two bytes of a
    PINGREQ and of a DISCONNECT, type and a zero remaining length, and do
    nothing else: no identifier is taken and nothing is registered. *)
Theorem ping_and_disconnect_send_two_bytes (c : Client) :
  ping c = Ok (emit (WsSend [192; 0]) c) /\
  disconnect c = Ok (emit (WsSend [224; 0]) c) /\
  _callbacks (andThen c ping) = _callbacks c /\
  _nextId (andThen c ping) = _nextId c /\
  _callbacks (andThen c disconnect) = _callbacks c /\
  _nextId (andThen c disconnect) = _nextId c.
Proof. repeat split. Qed.

(** X16.  In every client a program can reach, the identifier counter is
    at least 1, identifier 0 holds nothing but the connect closure, the
    connect closure sits nowhere else, and every registered identifier is
    below the counter. *)
Theorem reserved_identifier_invariant (c : Client) :
  reachable c ->
  1 <= _nextId c /\
  (forall h, _callbacks c !! 0 = Some h -> h = HConnect) /\
  (forall k, _callbacks c !! k = Some HConnect -> k = 0) /\
  (forall k h, _callbacks c !! k = Some h -> 0 <= k < _nextId c).
Proof.
  intros Hr. destruct (reachable_registryOk c Hr) as [Hn Hreg].
  split; [done |]. split; [| split].
  - intros h Hh. destruct (Hreg 0 h Hh) as [[_ ?] | [? _]]; [done | lia].
  - intros k Hk. destruct (Hreg k HConnect Hk) as [[? _] | [_ ?]]; done.
  - intros k h Hk. destruct (Hreg k h Hk) as [[-> _] | [? _]]; lia.
Qed.

Lemma reserved_identifier_invariant_witness :
  reachable (andThen (andThen client0 (perform CallOpen))
               (perform (CallSubscribe [TopicStr [120]] None None))) /\
  1 <= _nextId (andThen (andThen client0 (perform CallOpen))
                  (perform (CallSubscribe [TopicStr [120]] None None))).
Proof.
  assert (reachable (andThen (andThen client0 (perform CallOpen))
               (perform (CallSubscribe [TopicStr [120]] None None)))) as Hr
    by (do 2 apply reach_call; apply reach_new).
  split; [exact Hr |].
  exact (proj1 (reserved_identifier_invariant _ Hr)).
Defined.

(** X17.  A CONNACK that arrives while nothing is registered under
    identifier 0 (before the socket has opened, as on every new client)
    makes [_receivePacket] throw a TypeError, the call of an undefined
    callback, and the client is left as it was. *)
Theorem unsolicited_connack_throws (c : Client) (data : list Z) :
  f_type (parse data) = PACKET_TYPE_CONNACK ->
  _callbacks c !! 0 = None ->
  _receivePacket data c = TypeError c /\
  forall o rand,
    _receivePacket data (constructor o rand) =
      TypeError (constructor o rand).
Proof.
  intros Ht H0. unfold _receivePacket. rewrite Ht.
  change (PACKET_TYPE_CONNACK =? PACKET_TYPE_CONNACK) with true. cbv iota.
  split; [by rewrite H0 |].
  intros o rand. cbn [_callbacks constructor]. by rewrite lookup_empty.
Qed.

Lemma unsolicited_connack_throws_witness :
  f_type (parse [32; 2; 0; 0]) = PACKET_TYPE_CONNACK /\
  _callbacks client0 !! 0 = None /\
  _receivePacket [32; 2; 0; 0] client0 = TypeError client0.
Proof.
  split; [reflexivity |]. split; [reflexivity |].
  exact (proj1 (unsolicited_connack_throws client0 [32; 2; 0; 0]
                  eq_refl eq_refl)).
Defined.

(** X18.  No call, whether it returns or throws, changes the client
    identifier, the clean-session flag or the keep-alive value the
    constructor set, and no call removes or rewrites what the client has
    already sent, emitted or invoked: the trace only grows at its end. *)
Theorem calls_keep_configuration (e : call) (c : Client) :
  let c' := andThen c (perform e) in
  _clientId c' = _clientId c /\
  _clean c' = _clean c /\
  _keepAlive c' = _keepAlive c /\
  exists evs, trace c' = trace c ++ evs.
Proof. apply perform_keepsConfig. Qed.

(** X19.  An acknowledgment that carries identifier 0 is taken for the
    connect handshake: while the connect closure is registered, a PUBACK,
    PUBCOMP, SUBACK or UNSUBACK with identifier 0 runs that closure, which
    has no return code to read and emits [error] "Connection failed";
    nothing is sent and no user callback is invoked. *)
Theorem ack_zero_runs_connect_closure (c : Client) (t : Z) :
  _callbacks c !! 0 = Some HConnect ->
  ackType t ->
  trace (andThen c (_receivePacket (buildPacket t 0 (Some (ntob 0)) None))) =
    trace c ++ [EmitError "Connection failed"].
Proof.
  intros Hreg Ht. unfold andThen. rewrite receive_ack by (done || lia).
  rewrite Hreg. reflexivity.
Qed.

Lemma ack_zero_runs_connect_closure_witness :
  _callbacks connecting !! 0 = Some HConnect /\
  ackType PACKET_TYPE_PUBACK /\
  trace (andThen connecting (_receivePacket [64; 2; 0; 0])) =
    trace connecting ++ [EmitError "Connection failed"].
Proof.
  assert (ackType PACKET_TYPE_PUBACK) as Ht by (by left).
  split; [reflexivity |]. split; [exact Ht |].
  exact (ack_zero_runs_connect_closure connecting PACKET_TYPE_PUBACK
           eq_refl Ht).
Defined.

(** X20.  The identifier counter is never wrapped.  A publish with a
    positive QoS made when the counter [k] has passed 65535 registers its
    completion under [k] but sends [k] modulo 65536 in the packet, and
    no inbound buffer can then resolve that completion: it stays
    registered whatever bytes arrive. *)
Theorem identifier_beyond_16_bits_is_never_acknowledged
  (c : Client) (topic : JS.jsstring) (message : option JS.jsstring)
  (opts : publishOptions) (callback : option ucb) (k : Z) :
  _nextId c = k -> 65536 <= k -> 0 < optQos opts ->
  let flags :=
    JS.bor (JS.bor (JS.shl (Z.b2z (optDup opts)) 3)
              (JS.shl (JS.band (optQos opts) 3) 1))
      (Z.b2z (optRemain opts)) in
  exists c1,
    publish topic message opts callback c = Ok c1 /\
    trace c1 =
      trace c ++
      [WsSend (buildPacket PACKET_TYPE_PUBLISH flags
                 (Some (stolpb topic ++ ntob (k mod 65536)))
                 (messageBytes message))] /\
    _callbacks c1 !! k = Some (HPublish callback) /\
    (forall data,
        Forall (fun b => 0 <= b < 256) data ->
        _callbacks (andThen c1 (_receivePacket data)) !! k =
          Some (HPublish callback)).
Proof.
  intros Hid Hk Hq flags. eexists.
  split; [apply publish_registers; lia |].
  rewrite Hid. cbn [trace _callbacks set_callbacks emit set_nextId].
  assert (ntob k = ntob (k mod 65536)) as <-.
  { rewrite !ntob_any. f_equal; [| f_equal]; Z.div_mod_to_equations; lia. }
  split; [reflexivity |]. split; [apply lookup_insert_eq |].
  intros data Hbytes. apply andThen_elim.
  match goal with |- context [_receivePacket data ?c1] =>
    pose proof (receive_registry data c1) as Hr;
    destruct (_receivePacket data c1) as [c2 | c2]
  end;
    destruct Hr as [_ [-> | [_ ->]]];
    cbn [_callbacks set_callbacks]; try apply lookup_insert_eq;
    (rewrite lookup_delete_ne;
      [apply lookup_insert_eq |
       pose proof (bton_range (U8.slice (f_body (parse data)) 0 2)
         (slice_bytes _ 0 2 (parse_body_bytes data Hbytes))); lia]).
Qed.

Lemma identifier_beyond_16_bits_is_never_acknowledged_witness :
  _nextId (set_nextId 65537 client0) = 65537 /\ 65536 <= 65537 /\
  0 < optQos (PubNumber 1) /\
  exists c1,
    publish [97] None (PubNumber 1) (Some 0%nat) (set_nextId 65537 client0)
      = Ok c1 /\
    trace c1 =
      trace (set_nextId 65537 client0) ++
      [WsSend (buildPacket PACKET_TYPE_PUBLISH 2
                 (Some (stolpb [97] ++ ntob 1)) (messageBytes None))] /\
    _callbacks c1 !! 65537 = Some (HPublish (Some 0%nat)).
Proof.
  split; [reflexivity |]. split; [lia |]. split; [simpl; lia |].
  destruct (identifier_beyond_16_bits_is_never_acknowledged
              (set_nextId 65537 client0) [97] None (PubNumber 1)
              (Some 0%nat) 65537 eq_refl ltac:(lia) ltac:(simpl; lia))
    as (c1 & H1 & H2 & H3 & _).
  exists c1. auto.
Defined.

(** X21.  A well-formed inbound PUBLISH with QoS 0 whose topic and
    payload have at most 65535 bytes each (so that each fits the argument
    list [String.fromCharCode.apply] is called with), with any dup and
    retain flags, makes the client emit [message] with the topic and the
    payload, and nothing is sent back. *)
Theorem inbound_publish_qos0_emits_only
  (c : Client) (dup retain : bool) (topic : JS.jsstring) (payload : list Z) :
  Forall (fun b => 0 <= b < 256) topic ->
  Forall (fun b => 0 <= b < 256) payload ->
  Z.of_nat (length topic) <= 65535 ->
  Z.of_nat (length payload) <= 65535 ->
  _receivePacket
    (buildPacket PACKET_TYPE_PUBLISH (8 * Z.b2z dup + Z.b2z retain)
       (Some (stolpb topic ++ payload)) None) c =
    Ok (emit (EmitMessage topic payload) c).
Proof.
  intros Ht Hp Hlen Hplen.
  assert (Z.of_nat (length (stolpb topic ++ payload)) < 2097152) as Hsize.
  { unfold stolpb, stob. rewrite !length_app, length_ntob. lia. }
  assert (Forall (fun b => 0 <= b < 256) (stolpb topic ++ payload)) as Hbytes.
  { unfold stolpb, stob.
    repeat (apply Forall_app; split); try done. apply ntob_bytes. lia. }
  unfold _receivePacket.
  rewrite parse_buildPacket
    by (cbn [default from_option lengthOr0]; unfold PACKET_TYPE_PUBLISH;
        first [done | destruct dup, retain; simpl; lia | lia]).
  cbn [f_type f_flags f_remainLen f_body default from_option lengthOr0].
  unfold id.
  change (PACKET_TYPE_PUBLISH =? PACKET_TYPE_CONNACK) with false.
  change (PACKET_TYPE_PUBLISH =? PACKET_TYPE_PUBLISH) with true.
  cbv iota. rewrite app_nil_r, Z.add_0_r.
  destruct (publish0_fields topic payload ltac:(lia)) as (Hn & Htopic & Hpay).
  unfold receivePublish.
  assert (JS.band (JS.shr (8 * Z.b2z dup + Z.b2z retain) 1) 3 = 0) as ->
    by (by destruct dup, retain).
  change (0 <? 0) with false. change (0 =? 1) with false.
  change (0 =? 2) with false. cbv iota.
  by rewrite Hn, Htopic, Hpay.
Qed.

Lemma inbound_publish_qos0_emits_only_witness :
  Z.of_nat (length [97; 47; 98]) <= 65535 /\
  Z.of_nat (length [104; 105]) <= 65535 /\
  _receivePacket
    (buildPacket PACKET_TYPE_PUBLISH (8 * Z.b2z false + Z.b2z true)
       (Some (stolpb [97; 47; 98] ++ [104; 105])) None) client0 =
    Ok (emit (EmitMessage [97; 47; 98] [104; 105]) client0).
Proof.
  split; [simpl; lia |]. split; [simpl; lia |].
  refine (inbound_publish_qos0_emits_only client0 false true [97; 47; 98]
            [104; 105] _ _ _ _).
  - repeat constructor; lia.
  - repeat constructor; lia.
  - simpl. lia.
  - simpl. lia.
Defined.



(** X23.  For every buffer whose length field ends within seven bytes
    (the cursor after it is at most 8, where the decoder's sums are
    exact), the head of [_receivePacket] yields a remaining length that is
    not negative and a body taken from inside the buffer: it has at most
    as many bytes as the remaining length declares and at most the
    buffer's bytes after the fixed header byte and the first length
    byte. *)
Theorem parse_body_bounds (data : list Z) :
  (decodeRemainingLength data).1 <= 8 ->
  0 <= f_remainLen (parse data) /\
  Z.of_nat (length (f_body (parse data))) <= f_remainLen (parse data) /\
  (length (f_body (parse data)) <= length data - 2)%nat.
Proof.
  intros _. unfold parse, decodeRemainingLength.
  pose proof (decodeLoop_bound (drop 1 data) 1 0 1 ltac:(lia)) as [Hp [Hn _]].
  destruct (decodeLoop (drop 1 data) 1 0 1) as [p n].
  cbn [fst snd f_remainLen f_body] in *.
  split; [done |].
  unfold U8.slice, U8.clamp.
  repeat match goal with |- context [?a <? ?b] =>
    destruct (Z.ltb_spec a b); [lia |] end.
  rewrite length_take, length_drop.
  generalize (length data). intros L.
  destruct (Z.le_gt_cases p (Z.of_nat L));
    destruct (Z.le_gt_cases (p + n) (Z.of_nat L));
    rewrite ?(Z.min_l p), ?(Z.min_r p), ?(Z.min_l (p + n)),
      ?(Z.min_r (p + n)) by lia;
    split; lia.
Qed.

Lemma parse_body_bounds_witness :
  (decodeRemainingLength [48; 9; 0; 1; 97; 104]).1 <= 8 /\
  0 <= f_remainLen (parse [48; 9; 0; 1; 97; 104]) /\
  Z.of_nat (length (f_body (parse [48; 9; 0; 1; 97; 104]))) <=
    f_remainLen (parse [48; 9; 0; 1; 97; 104]) /\
  (length (f_body (parse [48; 9; 0; 1; 97; 104]%Z)) <=
     length [48; 9; 0; 1; 97; 104]%Z - 2)%nat.
Proof.
  split; [vm_compute; discriminate |].
  apply (parse_body_bounds [48; 9; 0; 1; 97; 104]).
  vm_compute. discriminate.
Defined.

(** X24.  [_connect] sends one CONNECT and registers the connect closure
    under identifier 0.  For a client identifier below 2097140 code units
    the packet is the type byte, the length field, the protocol name
    "MQTT" length-prefixed, level 4, a flags byte that is 2 plus the
    clean-session bit (the will flag is always set, and no will, user name
    or password follows), the keep-alive in two bytes, and the client
    identifier length-prefixed, its code units cut to eight bits. *)
Theorem connect_packet_bytes (c : Client) :
  let n := Z.of_nat (length (_clientId c)) in
  let ka := toNumber (_keepAlive c) in
  n < 2097140 ->
  _connect c =
    Ok (set_callbacks (<[0 := HConnect]> (_callbacks c))
          (emit (WsSend
                   (16 :: encodeRemainingLength (12 + n) ++
                    [0; 4; 77; 81; 84; 84; 4; 2 + Z.b2z (_clean c);
                     (ka / 256) mod 256; ka mod 256] ++
                    [(n / 256) mod 256; n mod 256] ++
                    ((fun v => v mod 256) <$> _clientId c))) c)).
Proof.
  intros n ka Hn. unfold _connect.
  rewrite sendPacket_register by lia. do 3 f_equal.
  assert (lengthOr0 (Some (stolpb MQTT_PROTOCOL_NAME ++
            [MQTT_PROTOCOL_LEVEL;
             JS.bor (Z.b2z (_clean c)) CONNECT_FLAG_WILL] ++
            ntob (toNumber (_keepAlive c)))) +
          lengthOr0 (Some (stolpb (_clientId c))) = 12 + n) as Hlen.
  { unfold lengthOr0, stolpb, stob, MQTT_PROTOCOL_NAME.
    rewrite !length_app, !length_ntob. cbn [length]. fold n. lia. }
  rewrite buildPacket_layout by (rewrite Hlen; lia).
  rewrite Hlen. cbn [default from_option]. unfold id.
  change (fixedHeaderByte PACKET_TYPE_CONNECT 0) with 16. do 2 f_equal.
  unfold stolpb, stob. fold n ka. rewrite !ntob_any, !fmap_app.
  assert (JS.bor (Z.b2z (_clean c)) CONNECT_FLAG_WILL = 2 + Z.b2z (_clean c))
    as -> by (by destruct (_clean c)).
  cbn [fmap list_fmap app length MQTT_PROTOCOL_NAME].
  change (Z.of_nat 4) with 4.
  change (MQTT_PROTOCOL_LEVEL) with 4.
  rewrite !Z.mod_mod by lia.
  rewrite (Z.mod_small (2 + Z.b2z (_clean c))) by (destruct (_clean c); simpl; lia).
  reflexivity.
Qed.

Lemma connect_packet_bytes_witness :
  Z.of_nat (length (_clientId client0)) < 2097140 /\
  _connect client0 =
    Ok (set_callbacks (<[0 := HConnect]> (_callbacks client0))
          (emit (WsSend
                   [16; 21; 0; 4; 77; 81; 84; 84; 4; 2; 0; 60; 0; 9;
                    97; 119; 115; 116; 115; 99; 95; 49; 50]) client0)).
Proof.
  split; [simpl; lia |].
  exact (connect_packet_bytes client0 ltac:(simpl; lia)).
Defined.

(** ** The identifier counter past sixteen bits *)

Section Overflow.


End Overflow.

